(** * Garden Planner: the canvas marker editor of [GardenPlanner]

    A shallow embedding of the marker editor of the React component
    [GardenPlanner] (pointer logic, hit test, relocation, marker deletion,
    project switching, auto-save and the canvas redraw), with the
    properties of its specification stated and settled against it.

    Numbers.  JavaScript numbers are modelled as real numbers ([R]):
    [Math.sqrt] is [sqrt], [/] is real division, comparisons are the real
    order.  Rounding of IEEE doubles is outside the model.  Identifiers
    ([Date.now()]) and the canvas bitmap size are integers ([Z]).

    State.  Every [useState] cell the modelled handlers touch is a field of
    the record [State]; a handler is a function on [State] that performs
    the handler's [setX] calls.  A handler that can raise a [TypeError]
    returns [option State], [None] standing for the exception. *)

From Stdlib Require Import Reals Lra Lia ZArith String List Bool.
From Stdlib Require Import DecimalString.
Import ListNotations.

Open Scope string_scope.
Open Scope list_scope.
Open Scope R_scope.

(** ** Comparisons of JavaScript numbers *)

Definition Rltb (a b : R) : bool := if Rlt_dec a b then true else false.
Definition Rgtb (a b : R) : bool := Rltb b a.

(** ** Data model *)

Record JournalEntry := mkJournalEntry {
  je_id : Z;
  je_timestamp : Z;
  je_text : string;
  je_photos : list string
}.

(** The plant attached by the lookup dialogs; opaque to the editor. *)
Record Plant := mkPlant {
  pl_source : string;
  pl_name : string;
  pl_scientific : string;
  pl_image : string;
  pl_url : string
}.

(** A marker object.  [description], [photos], [journalEntries] and
    [linkedPlant] are read with [|| default] by the source, so they may be
    absent. *)
Record Marker := mkMarker {
  m_id : Z;
  m_x : R;
  m_y : R;
  m_label : string;
  m_description : option string;
  m_photos : option (list string);
  m_journalEntries : option (list JournalEntry);
  m_linkedPlant : option Plant;
  m_color : string
}.

(** A project object; [markers] and [globalJournalEntries] are read with
    [|| []] by [loadProject]. *)
Record Project := mkProject {
  p_id : Z;
  p_name : string;
  p_image : string;
  p_markers : option (list Marker);
  p_globalJournalEntries : option (list JournalEntry)
}.

Inductive Tool := ToolMarker | ToolPan.

Record Point := mkPoint { px : R; py : R }.

(** The editing buffers of the marker dialog, filled by
    [openMarkerDialog]. *)
Record Editor := mkEditor {
  noteText : string;
  noteDescription : string;
  notePhotos : list string;
  markerJournalEntries : list JournalEntry;
  linkedPlant : option Plant;
  newJournalText : string;
  newJournalPhotos : list string
}.

(** The [useState] cells of [GardenPlanner] that the editor reads or
    writes.  The last two fields are bookkeeping for the dependency arrays
    of the two effects: [saveDepsChanged] for
    [[markers, globalJournalEntries, currentProject]] (auto-save) and
    [drawDepsChanged] for
    [[markers, currentProject, relocatingMarker, imageLoaded]] (redraw).
    A setter of one of those cells raises the flag when React would see a
    new value: always for a freshly built array or object, and for [null]
    and booleans only when the value differs.  The flags are lowered when
    the effects have run (see [commit]). *)
Record State := mkState {
  projects : list Project;
  currentProject : option Project;
  markers : list Marker;
  globalJournalEntries : list JournalEntry;
  tool : Tool;
  selectedItem : option Marker;
  editor : Editor;
  showNoteDialog : bool;
  showDeleteMarkerConfirm : bool;
  showSidebar : bool;
  scale : R;
  pan : Point;
  isPanning : bool;
  panStart : Point;
  relocatingMarker : option Marker;
  imageLoaded : bool;
  saveDepsChanged : bool;
  drawDepsChanged : bool
}.

Definition emptyEditor : Editor := mkEditor EmptyString EmptyString [] [] None EmptyString [].

(** The state of the first render: the [useState] initial values. *)
Definition initialState : State :=
  mkState [] None [] [] ToolMarker None emptyEditor false false false
          1 (mkPoint 0 0) false (mkPoint 0 0) None false false false.

(** ** Setters *)

Definition setProjects (v : list Project) (s : State) : State :=
  mkState v (currentProject s) (markers s) (globalJournalEntries s) (tool s)
    (selectedItem s) (editor s) (showNoteDialog s) (showDeleteMarkerConfirm s) (showSidebar s)
    (scale s) (pan s) (isPanning s) (panStart s) (relocatingMarker s)
    (imageLoaded s) (saveDepsChanged s) (drawDepsChanged s).

Definition setCurrentProject (v : option Project) (s : State) : State :=
  mkState (projects s) v (markers s) (globalJournalEntries s) (tool s)
    (selectedItem s) (editor s) (showNoteDialog s) (showDeleteMarkerConfirm s) (showSidebar s)
    (scale s) (pan s) (isPanning s) (panStart s) (relocatingMarker s)
    (imageLoaded s)
    (match v, currentProject s with None, None => saveDepsChanged s | _, _ => true end)
    (match v, currentProject s with None, None => drawDepsChanged s | _, _ => true end).

Definition setMarkers (v : list Marker) (s : State) : State :=
  mkState (projects s) (currentProject s) v (globalJournalEntries s) (tool s)
    (selectedItem s) (editor s) (showNoteDialog s) (showDeleteMarkerConfirm s) (showSidebar s)
    (scale s) (pan s) (isPanning s) (panStart s) (relocatingMarker s)
    (imageLoaded s) true true.

Definition setGlobalJournalEntries (v : list JournalEntry) (s : State) : State :=
  mkState (projects s) (currentProject s) (markers s) v (tool s)
    (selectedItem s) (editor s) (showNoteDialog s) (showDeleteMarkerConfirm s) (showSidebar s)
    (scale s) (pan s) (isPanning s) (panStart s) (relocatingMarker s)
    (imageLoaded s) true (drawDepsChanged s).

Definition setTool (v : Tool) (s : State) : State :=
  mkState (projects s) (currentProject s) (markers s) (globalJournalEntries s) v
    (selectedItem s) (editor s) (showNoteDialog s) (showDeleteMarkerConfirm s) (showSidebar s)
    (scale s) (pan s) (isPanning s) (panStart s) (relocatingMarker s)
    (imageLoaded s) (saveDepsChanged s) (drawDepsChanged s).

Definition setSelectedItem (v : option Marker) (s : State) : State :=
  mkState (projects s) (currentProject s) (markers s) (globalJournalEntries s)
    (tool s) v (editor s) (showNoteDialog s) (showDeleteMarkerConfirm s) (showSidebar s)
    (scale s) (pan s) (isPanning s) (panStart s) (relocatingMarker s)
    (imageLoaded s) (saveDepsChanged s) (drawDepsChanged s).

Definition setEditor (v : Editor) (s : State) : State :=
  mkState (projects s) (currentProject s) (markers s) (globalJournalEntries s)
    (tool s) (selectedItem s) v (showNoteDialog s) (showDeleteMarkerConfirm s) (showSidebar s)
    (scale s) (pan s) (isPanning s) (panStart s) (relocatingMarker s)
    (imageLoaded s) (saveDepsChanged s) (drawDepsChanged s).

Definition setShowNoteDialog (v : bool) (s : State) : State :=
  mkState (projects s) (currentProject s) (markers s) (globalJournalEntries s)
    (tool s) (selectedItem s) (editor s) v (showDeleteMarkerConfirm s) (showSidebar s)
    (scale s) (pan s) (isPanning s) (panStart s) (relocatingMarker s)
    (imageLoaded s) (saveDepsChanged s) (drawDepsChanged s).

Definition setShowDeleteMarkerConfirm (v : bool) (s : State) : State :=
  mkState (projects s) (currentProject s) (markers s) (globalJournalEntries s)
    (tool s) (selectedItem s) (editor s) (showNoteDialog s) v (showSidebar s)
    (scale s) (pan s) (isPanning s) (panStart s) (relocatingMarker s)
    (imageLoaded s) (saveDepsChanged s) (drawDepsChanged s).

Definition setShowSidebar (v : bool) (s : State) : State :=
  mkState (projects s) (currentProject s) (markers s) (globalJournalEntries s)
    (tool s) (selectedItem s) (editor s) (showNoteDialog s)
    (showDeleteMarkerConfirm s) v
    (scale s) (pan s) (isPanning s) (panStart s) (relocatingMarker s)
    (imageLoaded s) (saveDepsChanged s) (drawDepsChanged s).

Definition setScale (v : R) (s : State) : State :=
  mkState (projects s) (currentProject s) (markers s) (globalJournalEntries s)
    (tool s) (selectedItem s) (editor s) (showNoteDialog s)
    (showDeleteMarkerConfirm s) (showSidebar s)
    v (pan s) (isPanning s) (panStart s) (relocatingMarker s)
    (imageLoaded s) (saveDepsChanged s) (drawDepsChanged s).

Definition setPan (v : Point) (s : State) : State :=
  mkState (projects s) (currentProject s) (markers s) (globalJournalEntries s)
    (tool s) (selectedItem s) (editor s) (showNoteDialog s)
    (showDeleteMarkerConfirm s) (showSidebar s)
    (scale s) v (isPanning s) (panStart s) (relocatingMarker s)
    (imageLoaded s) (saveDepsChanged s) (drawDepsChanged s).

Definition setIsPanning (v : bool) (s : State) : State :=
  mkState (projects s) (currentProject s) (markers s) (globalJournalEntries s)
    (tool s) (selectedItem s) (editor s) (showNoteDialog s)
    (showDeleteMarkerConfirm s) (showSidebar s)
    (scale s) (pan s) v (panStart s) (relocatingMarker s)
    (imageLoaded s) (saveDepsChanged s) (drawDepsChanged s).

Definition setPanStart (v : Point) (s : State) : State :=
  mkState (projects s) (currentProject s) (markers s) (globalJournalEntries s)
    (tool s) (selectedItem s) (editor s) (showNoteDialog s)
    (showDeleteMarkerConfirm s) (showSidebar s)
    (scale s) (pan s) (isPanning s) v (relocatingMarker s)
    (imageLoaded s) (saveDepsChanged s) (drawDepsChanged s).

Definition setRelocatingMarker (v : option Marker) (s : State) : State :=
  mkState (projects s) (currentProject s) (markers s) (globalJournalEntries s)
    (tool s) (selectedItem s) (editor s) (showNoteDialog s)
    (showDeleteMarkerConfirm s) (showSidebar s)
    (scale s) (pan s) (isPanning s) (panStart s) v
    (imageLoaded s) (saveDepsChanged s)
    (match v, relocatingMarker s with None, None => drawDepsChanged s | _, _ => true end).

Definition setImageLoaded (v : bool) (s : State) : State :=
  mkState (projects s) (currentProject s) (markers s) (globalJournalEntries s)
    (tool s) (selectedItem s) (editor s) (showNoteDialog s)
    (showDeleteMarkerConfirm s) (showSidebar s)
    (scale s) (pan s) (isPanning s) (panStart s) (relocatingMarker s)
    v (saveDepsChanged s)
    (drawDepsChanged s || negb (Bool.eqb v (imageLoaded s))).

(** Lowers both dependency flags once the effects of a render have run. *)
Definition clearDeps (s : State) : State :=
  mkState (projects s) (currentProject s) (markers s) (globalJournalEntries s)
    (tool s) (selectedItem s) (editor s) (showNoteDialog s)
    (showDeleteMarkerConfirm s) (showSidebar s)
    (scale s) (pan s) (isPanning s) (panStart s) (relocatingMarker s)
    (imageLoaded s) false false.

(** ** The DOM the component reads and draws on *)

Record DOMRect := mkRect {
  rect_left : R;
  rect_top : R;
  rect_width : R;
  rect_height : R
}.

(** The calls made on the 2D context, with the context settings in force
    at the call. *)
Inductive DrawOp :=
| ClearRect (x y w h : R)
| FillArc (x y radius : R) (fillStyle shadowColor : string) (shadowBlur : R)
| StrokeArc (x y radius : R) (strokeStyle : string) (lineWidth : R)
| FillRoundRect (x y w h radii : R) (fillStyle : string)
| FillText (text : string) (x y : R) (fillStyle : string).

(** The canvas element: the size of its bitmap, its bounding client
    rectangle, and the calls drawn on the bitmap since it was last reset. *)
Record Canvas := mkCanvas {
  c_width : Z;
  c_height : Z;
  c_rect : DOMRect;
  c_ops : list DrawOp
}.

(** The image element showing [currentProject.image]. *)
Record Image := mkImage {
  img_complete : bool;
  img_naturalWidth : Z;
  img_naturalHeight : Z
}.

(** [canvasRef.current] and [imageRef.current]; [None] is [null]. *)
Record Dom := mkDom {
  canvasRef : option Canvas;
  imageRef : option Image
}.

(** ** Pointer logic *)

Record Touch := mkTouch { t_clientX : R; t_clientY : R }.

(** A mouse event has no [touches]; a touch event carries its list. *)
Inductive PointerEvent :=
| MouseEv (clientX clientY : R)
| TouchEv (touches : list Touch).

Record Pos := mkPos {
  pos_x : R;
  pos_y : R;
  pos_clientX : R;
  pos_clientY : R
}.

(** [e.touches ? e.touches[0].clientX : e.clientX], and the same for Y;
    reading [clientX] of a missing first touch raises. *)
Definition clientOf (e : PointerEvent) : option (R * R) :=
  match e with
  | MouseEv cx cy => Some (cx, cy)
  | TouchEv (t :: _) => Some (t_clientX t, t_clientY t)
  | TouchEv [] => None
  end.

Definition getPointerPos (d : Dom) (e : PointerEvent) : option Pos :=
  match clientOf e with
  | None => None
  | Some (clientX, clientY) =>
      match canvasRef d with
      | None => None
      | Some canvas =>
          let rect := c_rect canvas in
          let scaleX := IZR (c_width canvas) / rect_width rect in
          let scaleY := IZR (c_height canvas) / rect_height rect in
          Some (mkPos ((clientX - rect_left rect) * scaleX)
                      ((clientY - rect_top rect) * scaleY)
                      clientX clientY)
      end
  end.

(** The distance test of [handleStart] against [relocatingMarker]. *)
Definition farFrom (rm : Marker) (pos : Pos) : bool :=
  let dx := m_x rm - pos_x pos in
  let dy := m_y rm - pos_y pos in
  Rgtb (sqrt (dx * dx + dy * dy)) 50.

Definition handleStart (d : Dom) (e : PointerEvent) (s : State) : option State :=
  match currentProject s with
  | None => Some s
  | Some _ =>
      match getPointerPos d e with
      | None => None
      | Some pos =>
          let startPan :=
            setPanStart (mkPoint (pos_clientX pos - px (pan s))
                                 (pos_clientY pos - py (pan s)))
                        (setIsPanning true s) in
          match relocatingMarker s with
          | Some rm => if farFrom rm pos then Some startPan else Some s
          | None =>
              match tool s with
              | ToolPan => Some startPan
              | ToolMarker => Some s
              end
          end
      end
  end.

(** [{ ...relocatingMarker, x: pos.x, y: pos.y }] *)
Definition movedTo (rm : Marker) (pos : Pos) : Marker :=
  mkMarker (m_id rm) (pos_x pos) (pos_y pos) (m_label rm) (m_description rm)
           (m_photos rm) (m_journalEntries rm) (m_linkedPlant rm) (m_color rm).

(** [markers.map(m => m.id === by.id ? by : m)] *)
Definition replaceById (by_ : Marker) (ms : list Marker) : list Marker :=
  map (fun m => if Z.eqb (m_id m) (m_id by_) then by_ else m) ms.

(** In the panning branch the source reads the client position from the
    event once more; it is the one [getPointerPos] returned. *)
Definition handleMove (d : Dom) (e : PointerEvent) (s : State) : option State :=
  match currentProject s with
  | None => Some s
  | Some _ =>
      match getPointerPos d e with
      | None => None
      | Some pos =>
          match relocatingMarker s, isPanning s with
          | Some rm, false =>
              let updated := movedTo rm pos in
              Some (setMarkers (replaceById updated (markers s))
                      (setRelocatingMarker (Some updated) s))
          | _, true =>
              Some (setPan (mkPoint (pos_clientX pos - px (panStart s))
                                    (pos_clientY pos - py (panStart s))) s)
          | None, false => Some s
          end
      end
  end.

Definition handleEnd (s : State) : State := setIsPanning false s.

(** ** Hit test and marker creation *)

(** The predicate given to [markers.find] by [handleCanvasClick]. *)
Definition hitTest (pos : Pos) (m : Marker) : bool :=
  let dx := m_x m - pos_x pos in
  let dy := m_y m - pos_y pos in
  Rltb (sqrt (dx * dx + dy * dy)) 30.

Definition hitMarker (ms : list Marker) (pos : Pos) : option Marker :=
  find (hitTest pos) ms.

Definition orElse {A} (o : option A) (d : A) : A :=
  match o with Some a => a | None => d end.

Definition openMarkerDialog (marker : Marker) (s : State) : State :=
  setShowNoteDialog true
    (setEditor (mkEditor (m_label marker)
                         (orElse (m_description marker) EmptyString)
                         (orElse (m_photos marker) [])
                         (orElse (m_journalEntries marker) [])
                         (m_linkedPlant marker) EmptyString [])
       (setSelectedItem (Some marker) s)).

Definition string_of_nat (n : nat) : string :=
  NilEmpty.string_of_uint (Nat.to_uint n).

(** The object literal of [handleCanvasClick]; [now] is [Date.now()]. *)
Definition newMarker (now : Z) (pos : Pos) (ms : list Marker) : Marker :=
  mkMarker now (pos_x pos) (pos_y pos)
           (String.append "Plant " (string_of_nat (length ms + 1)))
           (Some EmptyString) (Some []) (Some []) None "#10b981"%string.

Definition handleCanvasClick (now : Z) (d : Dom) (e : PointerEvent) (s : State)
  : option State :=
  match currentProject s with
  | None => Some s
  | Some _ =>
      match relocatingMarker s with
      | Some _ => Some s
      | None =>
          match getPointerPos d e with
          | None => None
          | Some pos =>
              match hitMarker (markers s) pos, tool s with
              | Some hit, ToolMarker => Some (openMarkerDialog hit s)
              | Some _, ToolPan => Some s
              | None, ToolMarker =>
                  let nm := newMarker now pos (markers s) in
                  Some (openMarkerDialog nm (setMarkers (markers s ++ [nm]) s))
              | None, ToolPan => Some s
              end
          end
      end
  end.

(** ** Dialog actions: relocation, saving and deleting a marker *)

Definition startRelocation (s : State) : State :=
  match selectedItem s with
  | Some sel =>
      setSelectedItem None (setShowNoteDialog false (setRelocatingMarker (Some sel) s))
  | None => s
  end.

(** [projects.find(p => p.id === currentProject.id)?.markers.find(m => m.id === rm.id)].
    The outer [Some]/[None] tells whether the expression evaluates or
    raises: the callback dereferences [currentProject], and [.markers.find]
    dereferences the [markers] of the project found; [?.] yields
    [undefined] when no project is found. *)
Definition findOriginal (s : State) (rm : Marker) : option (option Marker) :=
  match currentProject s with
  | None =>
      match projects s with
      | [] => Some None
      | _ :: _ => None
      end
  | Some cp =>
      match find (fun p => Z.eqb (p_id p) (p_id cp)) (projects s) with
      | None => Some None
      | Some p =>
          match p_markers p with
          | None => None
          | Some ms => Some (find (fun m => Z.eqb (m_id m) (m_id rm)) ms)
          end
      end
  end.

Definition finishRelocation (save : bool) (s : State) : option State :=
  match save, relocatingMarker s with
  | false, Some rm =>
      match findOriginal s rm with
      | None => None
      | Some (Some original) =>
          Some (setRelocatingMarker None
                  (setMarkers
                     (map (fun m => if Z.eqb (m_id m) (m_id rm) then original else m)
                          (markers s)) s))
      | Some None => Some (setRelocatingMarker None s)
      end
  | _, _ => Some (setRelocatingMarker None s)
  end.

(** [{ ...m, label: noteText, description: noteDescription, ... }] *)
Definition withDetails (ed : Editor) (m : Marker) : Marker :=
  mkMarker (m_id m) (m_x m) (m_y m) (noteText ed) (Some (noteDescription ed))
           (Some (notePhotos ed)) (Some (markerJournalEntries ed))
           (linkedPlant ed) (m_color m).

(** Both [saveMarkerDetails] and [deleteMarker] dereference [selectedItem]
    inside the callback of [map] / [filter]: with [selectedItem === null]
    they raise as soon as there is a marker to visit. *)
Definition saveMarkerDetails (s : State) : option State :=
  let close ms := setSelectedItem None (setShowNoteDialog false (setMarkers ms s)) in
  match selectedItem s, markers s with
  | Some sel, ms =>
      Some (close (map (fun m => if Z.eqb (m_id m) (m_id sel)
                                 then withDetails (editor s) m else m) ms))
  | None, [] => Some (close [])
  | None, _ :: _ => None
  end.

Definition deleteMarker (s : State) : option State :=
  let close ms :=
    setShowDeleteMarkerConfirm false
      (setSelectedItem None (setShowNoteDialog false (setMarkers ms s))) in
  match selectedItem s, markers s with
  | Some sel, ms =>
      Some (close (filter (fun m => negb (Z.eqb (m_id m) (m_id sel))) ms))
  | None, [] => Some (close [])
  | None, _ :: _ => None
  end.

(** ** Project lifecycle and auto-save *)

Definition loadProject (project : Project) (s : State) : State :=
  setImageLoaded false
    (setRelocatingMarker None
       (setPan (mkPoint 0 0)
          (setScale 1
             (setGlobalJournalEntries (orElse (p_globalJournalEntries project) [])
                (setMarkers (orElse (p_markers project) [])
                   (setCurrentProject (Some project) s)))))).

(** [{ ...currentProject, markers, globalJournalEntries }] *)
Definition snapshot (cp : Project) (s : State) : Project :=
  mkProject (p_id cp) (p_name cp) (p_image cp)
            (Some (markers s)) (Some (globalJournalEntries s)).

(** The synchronous part of [saveData], up to the [fetch]: the project
    list is rewritten with the current markers and journal. *)
Definition saveData (s : State) : State :=
  match currentProject s with
  | Some cp =>
      setProjects
        (map (fun p => if Z.eqb (p_id p) (p_id cp) then snapshot cp s else p)
             (projects s)) s
  | None => setProjects (projects s) s
  end.

(** The continuation of [saveData] after the [fetch]: the list returned by
    the persistence service, when there is one, is adopted. *)
Definition saveResponse (data : option (list Project)) (s : State) : State :=
  match data with
  | Some ps => setProjects ps s
  | None => s
  end.

(** [useEffect(() => { if (currentProject) saveData(); },
               [markers, globalJournalEntries, currentProject])] *)
Definition autoSaveEffect (s : State) : State :=
  if saveDepsChanged s then
    match currentProject s with
    | Some _ => saveData s
    | None => s
    end
  else s.

Definition handleZoom (delta : R) (s : State) : State :=
  setScale (Rmax 0.2 (Rmin 5 (scale s + delta))) s.

(** ** The redraw effect *)

Definition MARKER_RADIUS : R := 8.
Definition LABEL_PADDING : R := 6.

(** The rectangle handed to [ctx.roundRect] for a marker's label. *)
Record LabelBox := mkLabelBox {
  labelX : R;
  labelY : R;
  boxWidth : R;
  boxHeight : R
}.

Section Redraw.

(** [ctx.measureText(label).width] under the font the effect sets. *)
Variable measureText : string -> R.

Definition labelBox (canvasWidth : Z) (marker : Marker) : LabelBox :=
  let boxWidth := measureText (m_label marker) + LABEL_PADDING * 2 in
  let boxHeight := 26 in
  let labelX := m_x marker + 14 in
  let labelY := m_y marker - 13 in
  let labelX :=
    if Rgtb (labelX + boxWidth) (IZR canvasWidth)
    then m_x marker - 14 - boxWidth else labelX in
  mkLabelBox labelX labelY boxWidth boxHeight.

(** [relocatingMarker && relocatingMarker.id === marker.id] *)
Definition isMoving (rel : option Marker) (marker : Marker) : bool :=
  match rel with
  | Some rm => Z.eqb (m_id rm) (m_id marker)
  | None => false
  end.

(** The body of [markers.forEach] for one marker. *)
Definition drawMarker (canvasWidth : Z) (rel : option Marker) (marker : Marker)
  : list DrawOp :=
  let moving := isMoving rel marker in
  let colour := if moving then "#fbbf24" else m_color marker in
  let radius := if moving then 12 else MARKER_RADIUS in
  let b := labelBox canvasWidth marker in
  [ FillArc (m_x marker) (m_y marker) radius colour colour
            (if moving then 20 else 12);
    StrokeArc (m_x marker) (m_y marker) radius "#fff" 3;
    FillRoundRect (labelX b) (labelY b) (boxWidth b) (boxHeight b) 6
                  "rgba(0, 0, 0, 0.85)";
    FillText (m_label marker) (labelX b + LABEL_PADDING)
             (labelY b + boxHeight b / 2) "#fff" ].

(** The image-ready guard of the effect: [img && img.complete && imageLoaded]. *)
Definition imageReady (s : State) (d : Dom) : bool :=
  match imageRef d with
  | Some img => img_complete img && imageLoaded s
  | None => false
  end.

(** The effect body.  Assigning [canvas.width] resets the bitmap, so the
    calls recorded afterwards replace the earlier ones. *)
Definition drawEffect (s : State) (d : Dom) : Dom :=
  match currentProject s, canvasRef d, imageRef d with
  | Some _, Some canvas, Some img =>
      if img_complete img && imageLoaded s then
        let w := img_naturalWidth img in
        let h := img_naturalHeight img in
        mkDom (Some (mkCanvas w h (c_rect canvas)
                       (ClearRect 0 0 (IZR w) (IZR h)
                        :: flat_map (drawMarker w (relocatingMarker s)) (markers s))))
              (imageRef d)
      else d
  | _, _, _ => d
  end.

End Redraw.

(** ** Callers of [loadProject] *)

(** The continuation of [loadData] once the project list has arrived. *)
Definition dataLoaded (loadedProjects : list Project) (s : State) : State :=
  match loadedProjects with
  | first :: _ => loadProject first (setProjects loadedProjects s)
  | [] => setProjects loadedProjects s
  end.

(** The [reader.onload] continuation of [handleImageUpload]: [now] is
    [Date.now()], [name] the file name without its extension and
    [resizedImage] the result of [resizeImage]. *)
Definition imageUploaded (now : Z) (name resizedImage : string) (s : State) : State :=
  let newProject := mkProject now name resizedImage (Some []) (Some []) in
  loadProject newProject (setProjects (projects s ++ [newProject]) s).

(** [deleteCurrentProject], its two halves around the [await] taken
    together. *)
Definition deleteCurrentProject (s : State) : State :=
  match currentProject s with
  | None => s
  | Some cp =>
      let updatedProjects :=
        filter (fun p => negb (Z.eqb (p_id p) (p_id cp))) (projects s) in
      match rev updatedProjects with
      | lastProject :: _ => loadProject lastProject (setProjects updatedProjects s)
      | [] => setCurrentProject None (setProjects updatedProjects s)
      end
  end.

(** ** The event loop *)

(** The component and the DOM it is mounted on. *)
Record World := mkWorld { ui : State; dom : Dom }.

(** The [onLoad] handler of the image element.  The two assignments to
    [canvas.style] act on layout only and are not recorded. *)
Definition onLoad (w : World) : World :=
  match canvasRef (dom w), imageRef (dom w) with
  | Some canvas, Some img =>
      mkWorld (setImageLoaded true (ui w))
              (mkDom (Some (mkCanvas (img_naturalWidth img) (img_naturalHeight img)
                                     (c_rect canvas) []))
                     (imageRef (dom w)))
  | _, _ => w
  end.

Inductive Event :=
| PointerDown (e : PointerEvent)
| PointerMove (e : PointerEvent)
| PointerUp
| Click (e : PointerEvent) (now : Z)
| SetTool (t : Tool)
| Zoom (delta : R)
| ResetView
| ToggleSidebar
| SidebarSelect (i : nat)
| CloseDialog
| StartRelocation
| FinishRelocation (save : bool)
| SaveMarkerDetails
| AskDeleteMarker
| CancelDeleteMarker
| DeleteMarker
| DataLoaded (loadedProjects : list Project)
| ImageUploaded (now : Z) (name resizedImage : string)
| DeleteCurrentProject
| ImageOnLoad
| SaveResponse (data : option (list Project))
| Browser (d : Dom).

(** The handler an event runs.  [Browser d] stands for what the browser
    does on its own between two handlers (layout, decoding, mounting): it
    replaces the DOM snapshot. *)
Definition handle (ev : Event) (w : World) : option World :=
  let s := ui w in
  let d := dom w in
  let onUi (r : option State) :=
    match r with Some s' => Some (mkWorld s' d) | None => None end in
  match ev with
  | PointerDown e => onUi (handleStart d e s)
  | PointerMove e => onUi (handleMove d e s)
  | PointerUp => onUi (Some (handleEnd s))
  | Click e now => onUi (handleCanvasClick now d e s)
  | SetTool t => onUi (Some (setTool t s))
  | Zoom delta => onUi (Some (handleZoom delta s))
  | ResetView => onUi (Some (setPan (mkPoint 0 0) (setScale 1 s)))
  | ToggleSidebar => onUi (Some (setShowSidebar (negb (showSidebar s)) s))
  | SidebarSelect i =>
      match nth_error (markers s) i with
      | Some marker => onUi (Some (setShowSidebar false (openMarkerDialog marker s)))
      | None => Some w
      end
  | CloseDialog => onUi (Some (setShowNoteDialog false s))
  | StartRelocation => onUi (Some (startRelocation s))
  | FinishRelocation save => onUi (finishRelocation save s)
  | SaveMarkerDetails => onUi (saveMarkerDetails s)
  | AskDeleteMarker => onUi (Some (setShowDeleteMarkerConfirm true s))
  | CancelDeleteMarker => onUi (Some (setShowDeleteMarkerConfirm false s))
  | DeleteMarker => onUi (deleteMarker s)
  | DataLoaded loadedProjects => onUi (Some (dataLoaded loadedProjects s))
  | ImageUploaded now name resizedImage =>
      onUi (Some (imageUploaded now name resizedImage s))
  | DeleteCurrentProject => onUi (Some (deleteCurrentProject s))
  | ImageOnLoad => Some (onLoad w)
  | SaveResponse data => onUi (Some (saveResponse data s))
  | Browser d' => Some (mkWorld s d')
  end.

Section Loop.

Variable measureText : string -> R.

(** The render that follows a handler: the effects whose dependencies
    changed run, the auto-save first, in the order they are declared. *)
Definition commit (w : World) : World :=
  let s := ui w in
  mkWorld (clearDeps (autoSaveEffect s))
          (if drawDepsChanged s then drawEffect measureText s (dom w) else dom w).

Definition step (ev : Event) (w : World) : option World :=
  match handle ev w with
  | Some w' => Some (commit w')
  | None => None
  end.

Fixpoint run (evs : list Event) (w : World) : option World :=
  match evs with
  | [] => Some w
  | ev :: rest =>
      match step ev w with
      | Some w' => run rest w'
      | None => None
      end
  end.

End Loop.

(** Which controls the JSX renders and the pointer can reach, hence which
    events the user can raise with it.  The canvas, tool bar, relocation
    bar and image exist only under [currentProject]; the relocation bar
    replaces the tool bar while a relocation is pending; the marker dialog
    and the delete confirmation are full-screen overlays, the second above
    the first, so the pointer reaches only the buttons of the topmost one;
    the side bar lists [markers].  A covered button stays mounted, and
    the keyboard can still activate it: [enabled] is sufficient for an
    event to be possible, not necessary. *)
Definition enabled (ev : Event) (w : World) : bool :=
  let s := ui w in
  let hasProject := match currentProject s with Some _ => true | None => false end in
  let relocating := match relocatingMarker s with Some _ => true | None => false end in
  let hasCanvas := match canvasRef (dom w) with Some _ => true | None => false end in
  let uncovered := negb (showNoteDialog s) && negb (showDeleteMarkerConfirm s) in
  match ev with
  | PointerDown _ | PointerMove _ | PointerUp | Click _ _ =>
      hasProject && hasCanvas && uncovered
  | SetTool _ => hasProject && negb relocating && uncovered
  | Zoom _ | ResetView | ToggleSidebar | DeleteCurrentProject =>
      hasProject && uncovered
  | SidebarSelect i =>
      showSidebar s && Nat.ltb i (length (markers s)) && uncovered
  | CloseDialog | StartRelocation | SaveMarkerDetails | AskDeleteMarker =>
      showNoteDialog s && negb (showDeleteMarkerConfirm s)
  | FinishRelocation _ => hasProject && relocating && uncovered
  | CancelDeleteMarker | DeleteMarker => showDeleteMarkerConfirm s
  | ImageOnLoad => hasProject
  | DataLoaded _ | ImageUploaded _ _ _ | SaveResponse _ | Browser _ => true
  end.

(** [allowed evs w]: every event of [evs] is enabled when it is raised,
    and no handler raises. *)
Fixpoint allowed (measureText : string -> R) (evs : list Event) (w : World) : bool :=
  match evs with
  | [] => true
  | ev :: rest =>
      enabled ev w &&
      match step measureText ev w with
      | Some w' => allowed measureText rest w'
      | None => false
      end
  end.

(** ** Image resizing

    [resizedSize] is what [resizeImage] leaves in [width] and [height]
    after its test: they start as the image's own size and are scaled
    down when the image is wider than [maxWidth] (1920 for a base image,
    1200 for a photo).  [height] need not be whole then. *)
Definition resizedSize (width height maxWidth : R) : R * R :=
  if Rgtb width maxWidth
  then (maxWidth, height * (maxWidth / width))
  else (width, height).

(** [canvas.width = width; canvas.height = height]: the size of a canvas
    is an [unsigned long], so the assignment drops the fraction of a
    pixel.  For the sizes an image can have, from 0 up to 2^31 - 1, that
    is the integer part. *)
Definition canvasSize (width height maxWidth : R) : Z * Z :=
  (Int_part (fst (resizedSize width height maxWidth)),
   Int_part (snd (resizedSize width height maxWidth))).

(** ** The persistence service ([server.js])

    [processImage] stores an inline image as a file and returns its path.
    What it does with the bytes (pattern match, base64 decoding, MD5, file
    write) is left to [storedAs], which gives the file name, or nothing
    when the data URL does not match the pattern or the write fails. *)
Section Persistence.

Variable storedAs : string -> option string.

Definition processImage (imgData : string) : string :=
  if String.prefix "data:image" imgData
  then match storedAs imgData with
       | Some filename => String.append "/uploads/" filename
       | None => imgData
       end
  else imgData.

Definition cleanEntry (entry : JournalEntry) : JournalEntry :=
  mkJournalEntry (je_id entry) (je_timestamp entry) (je_text entry)
                 (map processImage (je_photos entry)).

Definition cleanMarker (marker : Marker) : Marker :=
  mkMarker (m_id marker) (m_x marker) (m_y marker) (m_label marker)
           (m_description marker)
           (option_map (map processImage) (m_photos marker))
           (option_map (map cleanEntry) (m_journalEntries marker))
           (m_linkedPlant marker) (m_color marker).

Definition cleanProject (project : Project) : Project :=
  mkProject (p_id project) (p_name project) (processImage (p_image project))
            (option_map (map cleanMarker) (p_markers project))
            (option_map (map cleanEntry) (p_globalJournalEntries project)).

Definition cleanProjectData (ps : list Project) : list Project :=
  map cleanProject ps.

(** The body of [POST /api/projects] as the client sees it: the cleaned
    list under [data] when the data file could be written, an error
    status otherwise. *)
Definition postProjects (written : bool) (body : list Project)
  : option (list Project) :=
  if written then Some (cleanProjectData body) else None.

End Persistence.

(** ** Notions used by the statements *)

(** Euclidean distance, in image pixels, between a marker and a pointer
    position. *)
Definition distance (m : Marker) (pos : Pos) : R :=
  sqrt ((m_x m - pos_x pos) * (m_x m - pos_x pos)
        + (m_y m - pos_y pos) * (m_y m - pos_y pos)).

(** A marker as [handleCanvasClick] creates it, at a given place. *)
Definition markerAt (id : Z) (x y : R) (label : string) : Marker :=
  mkMarker id x y label (Some EmptyString) (Some []) (Some []) None "#10b981".

Definition posAt (x y : R) : Pos := mkPos x y x y.

(** The two overlapping markers of the hit-test regression case. *)
Definition markerA : Marker := markerAt 1 100 100 "A".
Definition markerB : Marker := markerAt 2 105 105 "B".

(** The states of the relocation machine.  The component has no such
    tag: it encodes them in [isPanning] and [relocatingMarker], and [mode]
    reads them back.  Whether a pointer is down is not part of the state,
    so a pending relocation with [isPanning] lowered reads as [Dragging]
    before as well as after a pointer-down; what a pointer-down changes
    is stated on the flags and on the moves that follow. *)
Inductive Mode := Idle | Panning | Dragging (markerId : Z).

Definition mode (s : State) : Mode :=
  if isPanning s then Panning
  else match relocatingMarker s with
       | Some rm => Dragging (m_id rm)
       | None => Idle
       end.

(** A succession of pointer-move events. *)
Fixpoint handleMoves (d : Dom) (es : list PointerEvent) (s : State) : option State :=
  match es with
  | [] => Some s
  | e :: rest =>
      match handleMove d e s with
      | Some s' => handleMoves d rest s'
      | None => None
      end
  end.

(** ** A concrete session

    A 200 by 200 image shown at its natural size with the canvas at the
    origin of the viewport, so that client coordinates are image
    coordinates. *)
Definition demoRect : DOMRect := mkRect 0 0 200 200.
Definition demoCanvas : Canvas := mkCanvas 200 200 demoRect [].
Definition demoImage : Image := mkImage true 200 200.
Definition demoDom : Dom := mkDom (Some demoCanvas) (Some demoImage).

(** Nine pixels a character, for [ctx.measureText]. *)
Definition demoMeasure (label : string) : R := 9 * INR (String.length label).

Definition demoProject : Project :=
  mkProject 1 "garden" "garden.png" (Some []) (Some []).

(** The first marker of the session, placed at (50,50) at time 1000. *)
Definition plant1 : Marker := markerAt 1000 50 50 "Plant 1".

(** A second project, without markers. *)
Definition projectB : Project :=
  mkProject 2 "patio" "patio.png" (Some []) (Some []).

(** A third project, holding the two markers above and one journal
    entry. *)
Definition sownEntry : JournalEntry := mkJournalEntry 500 500 "sown" [].

Definition projectA : Project :=
  mkProject 3 "yard" "yard.png" (Some [markerA; markerB]) (Some [sownEntry]).

(** The component as mounted, before any project is there. *)
Definition initialWorld : World := mkWorld initialState (mkDom None None).

(** An image is uploaded and decoded, a marker is placed by a click at
    (50,50) at time 1000, and "Relocate" is pressed in its dialog. *)
Definition placeAndRelocate : list Event :=
  [ ImageUploaded 1 "garden" "garden.png"; Browser demoDom; ImageOnLoad;
    Click (MouseEv 50 50) 1000; StartRelocation ].

(** The relocation is dragged through three positions and cancelled. *)
Definition dragAndCancel : list Event :=
  placeAndRelocate ++
  [ PointerMove (MouseEv 60 60); PointerMove (MouseEv 70 40);
    PointerMove (MouseEv 55 55); FinishRelocation false ].

(** With the relocation pending, the marker is opened from the side bar
    and deleted. *)
Definition deleteWhileRelocating : list Event :=
  placeAndRelocate ++
  [ ToggleSidebar; SidebarSelect 0; AskDeleteMarker; DeleteMarker ].

(** A marker is placed at (50,50) at time 1000 and its dialog is saved. *)
Definition placeAndSave : list Event :=
  [ ImageUploaded 1 "garden" "garden.png"; Browser demoDom; ImageOnLoad;
    Click (MouseEv 50 50) 1000; SaveMarkerDetails ].

(** A second marker is then placed 100 pixels away each way, while the
    clock reads 1000 again. *)
Definition placeTwiceSameClock : list Event :=
  placeAndSave ++ [ Click (MouseEv 150 150) 1000 ].

(** What [getPointerPos] returns on [demoDom] for a mouse event at
    (x,y), as it computes it. *)
Definition demoPos (x y : R) : Pos :=
  mkPos ((x - 0) * (IZR 200 / 200)) ((y - 0) * (IZR 200 / 200)) x y.

(** The component once marker [m] has been placed in the demo project
    and its relocation requested: the project list holds the auto-saved
    copy of the marker. *)
Definition pendingAt (m : Marker) : State :=
  mkState [mkProject 1 "garden" "garden.png" (Some [m]) (Some [])]
          (Some demoProject) [m] [] ToolMarker None
          (mkEditor "Plant 1" EmptyString [] [] None EmptyString [])
          false false false
          1 (mkPoint 0 0) false (mkPoint 0 0) (Some m) true false false.

Definition pendingState : State := pendingAt plant1.

(** The component once [m] has been placed and its dialog saved. *)
Definition placedAt (m : Marker) : State :=
  mkState [mkProject 1 "garden" "garden.png" (Some [m]) (Some [])]
          (Some demoProject) [m] [] ToolMarker None
          (mkEditor "Plant 1" EmptyString [] [] None EmptyString [])
          false false false
          1 (mkPoint 0 0) false (mkPoint 0 0) None true false false.

(** The component after [m], pending relocation, has been deleted from
    the dialog opened in the side bar. *)
Definition orphanedAt (m : Marker) : State :=
  mkState [mkProject 1 "garden" "garden.png" (Some []) (Some [])]
          (Some demoProject) [] [] ToolMarker None
          (mkEditor "Plant 1" EmptyString [] [] None EmptyString [])
          false false false
          1 (mkPoint 0 0) false (mkPoint 0 0) (Some m) true false false.

(** The world in which the demo canvas shows the redraw of state [s]. *)
Definition shown (s : State) : World :=
  mkWorld s (drawEffect demoMeasure s demoDom).

(** ** Notions used by the further properties *)

(** What places a marker on the image: its id, position and colour. *)
Definition placement (m : Marker) : Z * R * R * string :=
  (m_id m, m_x m, m_y m, m_color m).

(** The markers of a collection have pairwise distinct ids. *)
Definition distinctIds (ms : list Marker) : Prop := NoDup (map m_id ms).

(** The markers a project object holds ([project.markers || []]). *)
Definition storedMarkers (p : Project) : list Marker := orElse (p_markers p) [].

(** The entry of the project list that [saveData] rewrites and
    [finishRelocation] reads: the first one with the current project's
    id. *)
Definition savedCopy (s : State) : option Project :=
  match currentProject s with
  | Some cp => find (fun p => Z.eqb (p_id p) (p_id cp)) (projects s)
  | None => None
  end.

(** The saved copy of the current project, when there is one, holds the
    markers and the journal of the component. *)
Definition savedAgrees (s : State) : Prop :=
  match savedCopy s with
  | Some p => p_markers p = Some (markers s) /\
              p_globalJournalEntries p = Some (globalJournalEntries s)
  | None => True
  end.

(** No save is due and the saved copy agrees with the component. *)
Definition Synced (s : State) : Prop :=
  saveDepsChanged s = false /\ savedAgrees s.

(** Ids are pairwise distinct in the collection and within every project
    of the list. *)
Definition AllDistinct (s : State) : Prop :=
  distinctIds (markers s) /\
  Forall (fun p => distinctIds (storedMarkers p)) (projects s).

(** What an event must bring for ids to stay distinct: a click a clock
    reading that is not yet an id of the collection, the service project
    lists with distinct ids. *)
Definition wellFormed (ev : Event) (s : State) : Prop :=
  match ev with
  | Click _ now => ~ In now (map m_id (markers s))
  | DataLoaded ps => Forall (fun p => distinctIds (storedMarkers p)) ps
  | SaveResponse (Some ps) => Forall (fun p => distinctIds (storedMarkers p)) ps
  | _ => True
  end.

(** Every event of a run is well formed when it is raised. *)
Fixpoint wellFormedRun (measureText : string -> R) (evs : list Event) (w : World)
  : Prop :=
  match evs with
  | [] => True
  | ev :: rest =>
      wellFormed ev (ui w) /\
      match step measureText ev w with
      | Some w' => wellFormedRun measureText rest w'
      | None => True
      end
  end.

(** The events by which the component adopts a project list sent back
    by the service after a save. *)
Definition adoptsServerList (ev : Event) : bool :=
  match ev with
  | SaveResponse (Some _) => true
  | _ => false
  end.

(** While the marker dialog is shown, a marker is selected. *)
Definition DialogHasSelection (s : State) : Prop :=
  showNoteDialog s = true -> selectedItem s <> None.

(** * Properties *)

(** ** Real-number comparisons *)

Lemma Rltb_true_iff (a b : R) : Rltb a b = true <-> a < b.
Proof.
  unfold Rltb. destruct (Rlt_dec a b); split; intro H;
    solve [reflexivity | assumption | discriminate | contradiction].
Qed.

Lemma Rltb_false_iff (a b : R) : Rltb a b = false <-> ~ a < b.
Proof.
  unfold Rltb. destruct (Rlt_dec a b); split; intro H;
    solve [reflexivity | assumption | discriminate | contradiction].
Qed.

Lemma sum_squares_nonneg (dx dy : R) : 0 <= dx * dx + dy * dy.
Proof. nra. Qed.

Lemma sqrt_lt_radius (v r : R) : 0 <= v -> 0 < r -> (sqrt v < r <-> v < r * r).
Proof.
  intros Hv Hr.
  assert (Hs : sqrt (r * r) = r) by (apply sqrt_square; lra).
  split; intro H.
  - apply sqrt_lt_0_alt. rewrite Hs. exact H.
  - rewrite <- Hs. apply sqrt_lt_1_alt. split; assumption.
Qed.

Lemma radius_lt_sqrt (v r : R) : 0 <= v -> 0 < r -> (r < sqrt v <-> r * r < v).
Proof.
  intros Hv Hr.
  assert (Hs : sqrt (r * r) = r) by (apply sqrt_square; lra).
  split; intro H.
  - apply sqrt_lt_0_alt. rewrite Hs. exact H.
  - rewrite <- Hs. apply sqrt_lt_1_alt. split; [nra | assumption].
Qed.

Lemma hitTest_distance (pos : Pos) (m : Marker) :
  hitTest pos m = true <-> distance m pos < 30.
Proof. unfold hitTest, distance. cbv zeta. apply Rltb_true_iff. Qed.

Lemma hitTest_squares (pos : Pos) (m : Marker) :
  hitTest pos m = true <->
  (m_x m - pos_x pos) * (m_x m - pos_x pos)
  + (m_y m - pos_y pos) * (m_y m - pos_y pos) < 900.
Proof.
  rewrite hitTest_distance. unfold distance.
  rewrite sqrt_lt_radius; [lra | apply sum_squares_nonneg | lra].
Qed.

Lemma farFrom_distance (rm : Marker) (pos : Pos) :
  farFrom rm pos = true <-> distance rm pos > 50.
Proof. unfold farFrom, distance, Rgtb. cbv zeta. apply Rltb_true_iff. Qed.

Lemma farFrom_near (rm : Marker) (pos : Pos) :
  farFrom rm pos = false <-> distance rm pos <= 50.
Proof.
  unfold farFrom, distance, Rgtb. cbv zeta. rewrite Rltb_false_iff. lra.
Qed.

(** ** Pointer logic *)

(** C7.  [getPointerPos] is a function of the event and of the canvas
    geometry alone (it has no [State] argument, so neither pan nor zoom
    enters it).  On a canvas whose bounding rectangle is not degenerate it
    returns the client offset from the rectangle's corner times the ratio
    of bitmap size to displayed size, and it is linear in that ratio:
    multiplying the ratio by [k] (by 2 in particular) multiplies the
    reported position by [k]. *)
Theorem getPointerPos_scales_linearly :
  forall (canvas : Canvas) (img : option Image) (e : PointerEvent) (cx cy : R),
    clientOf e = Some (cx, cy) ->
    rect_width (c_rect canvas) <> 0 ->
    rect_height (c_rect canvas) <> 0 ->
    let rect := c_rect canvas in
    getPointerPos (mkDom (Some canvas) img) e =
      Some (mkPos ((cx - rect_left rect) * IZR (c_width canvas) / rect_width rect)
                  ((cy - rect_top rect) * IZR (c_height canvas) / rect_height rect)
                  cx cy)
    /\ forall (k : R) (canvas' : Canvas) (img' : option Image),
         rect_left (c_rect canvas') = rect_left rect ->
         rect_top (c_rect canvas') = rect_top rect ->
         IZR (c_width canvas') / rect_width (c_rect canvas') =
           k * (IZR (c_width canvas) / rect_width rect) ->
         IZR (c_height canvas') / rect_height (c_rect canvas') =
           k * (IZR (c_height canvas) / rect_height rect) ->
         exists p p',
           getPointerPos (mkDom (Some canvas) img) e = Some p /\
           getPointerPos (mkDom (Some canvas') img') e = Some p' /\
           pos_x p' = k * pos_x p /\ pos_y p' = k * pos_y p.
Proof.
  intros canvas img e cx cy He Hw Hh rect. split.
  - unfold getPointerPos. rewrite He. cbn. fold rect.
    f_equal. f_equal; field; assumption.
  - intros k canvas' img' Hl Ht Hx Hy.
    unfold getPointerPos. rewrite He. cbn. fold rect.
    eexists. eexists. split; [reflexivity |]. split; [reflexivity |].
    cbn. rewrite Hx, Hy, Hl, Ht. split; ring.
Qed.

Lemma getPointerPos_scales_linearly_witness :
  getPointerPos (mkDom (Some (mkCanvas 400 300 (mkRect 10 20 200 150) [])) None)
                (MouseEv 110 95)
  = Some (mkPos ((110 - 10) * IZR 400 / 200) ((95 - 20) * IZR 300 / 150) 110 95).
Proof.
  refine (proj1 (getPointerPos_scales_linearly
                   (mkCanvas 400 300 (mkRect 10 20 200 150) []) None
                   (MouseEv 110 95) 110 95 eq_refl _ _)); cbn; lra.
Defined.

(** ** Hit test *)

(** C2.  The hit test of a click returns the first marker, in collection
    order, whose distance to the query point is below 30: every marker
    before it is at distance 30 or more, and no marker is returned exactly
    when all of them are.  Order decides, not nearness: with A at
    (100,100) and B at (105,105), the query (102,102) returns A when A was
    inserted first, and returns B when B was, although A is the nearer
    one. *)
Theorem hitMarker_first_within_radius :
  (forall (ms : list Marker) (pos : Pos),
      match hitMarker ms pos with
      | Some m =>
          exists before after,
            ms = before ++ m :: after /\
            distance m pos < 30 /\
            Forall (fun m' => 30 <= distance m' pos) before
      | None => Forall (fun m' => 30 <= distance m' pos) ms
      end)
  /\ hitMarker [markerA; markerB] (posAt 102 102) = Some markerA
  /\ hitMarker [markerB; markerA] (posAt 102 102) = Some markerB
  /\ distance markerA (posAt 102 102) < distance markerB (posAt 102 102).
Proof.
  assert (HA : hitTest (posAt 102 102) markerA = true)
    by (apply hitTest_squares; cbn; lra).
  assert (HB : hitTest (posAt 102 102) markerB = true)
    by (apply hitTest_squares; cbn; lra).
  split; [| split; [| split]].
  - intros ms pos. unfold hitMarker.
    induction ms as [| m ms IH]; cbn [find].
    + constructor.
    + destruct (hitTest pos m) eqn:Hm.
      * exists [], ms. split; [reflexivity |]. split; [| constructor].
        apply hitTest_distance. exact Hm.
      * assert (Hfar : 30 <= distance m pos).
        { apply Rnot_lt_le. intro Hlt. apply hitTest_distance in Hlt. congruence. }
        destruct (find (hitTest pos) ms) as [hit |].
        -- destruct IH as (before & after & Heq & Hd & Hall).
           exists (m :: before), after. rewrite Heq.
           split; [reflexivity |]. split; [exact Hd |].
           constructor; assumption.
        -- constructor; assumption.
  - unfold hitMarker. cbn [find]. rewrite HA. reflexivity.
  - unfold hitMarker. cbn [find]. rewrite HB. reflexivity.
  - unfold distance. apply sqrt_lt_1_alt. cbn. lra.
Qed.

(** With the marker tool and no relocation pending, a click that hits a
    marker opens the dialog of the marker the hit test returned. *)
Lemma handleCanvasClick_opens_hit (now : Z) (d : Dom) (e : PointerEvent)
      (s : State) (cp : Project) (pos : Pos) (hit : Marker) :
  currentProject s = Some cp ->
  relocatingMarker s = None ->
  tool s = ToolMarker ->
  getPointerPos d e = Some pos ->
  hitMarker (markers s) pos = Some hit ->
  handleCanvasClick now d e s = Some (openMarkerDialog hit s).
Proof.
  intros Hcp Hrel Htool Hpos Hhit. unfold handleCanvasClick.
  rewrite Hcp, Hrel, Hpos, Hhit, Htool. reflexivity.
Qed.

(** ** Relocation: pointer-down and pointer-move *)

Lemma handleMove_relocating (d : Dom) (e : PointerEvent) (s : State)
      (cp : Project) (rm : Marker) (pos : Pos) :
  currentProject s = Some cp ->
  relocatingMarker s = Some rm ->
  isPanning s = false ->
  getPointerPos d e = Some pos ->
  handleMove d e s =
    Some (setMarkers (replaceById (movedTo rm pos) (markers s))
            (setRelocatingMarker (Some (movedTo rm pos)) s)).
Proof.
  intros Hcp Hrm Hpan Hpos. unfold handleMove.
  rewrite Hcp, Hpos, Hrm, Hpan. reflexivity.
Qed.

Lemma handleMove_panning (d : Dom) (e : PointerEvent) (s : State)
      (cp : Project) (pos : Pos) :
  currentProject s = Some cp ->
  isPanning s = true ->
  getPointerPos d e = Some pos ->
  handleMove d e s =
    Some (setPan (mkPoint (pos_clientX pos - px (panStart s))
                          (pos_clientY pos - py (panStart s))) s).
Proof.
  intros Hcp Hpan Hpos. unfold handleMove.
  rewrite Hcp, Hpos, Hpan. destruct (relocatingMarker s); reflexivity.
Qed.

Lemma replaceById_same_id (u1 u2 : Marker) (ms : list Marker) :
  m_id u1 = m_id u2 ->
  replaceById u2 (replaceById u1 ms) = replaceById u2 ms.
Proof.
  intro Hid. unfold replaceById. rewrite map_map. apply map_ext.
  intro m. rewrite Hid.
  destruct (Z.eqb (m_id m) (m_id u2)) eqn:Hm; [| rewrite Hm; reflexivity].
  rewrite Hid, Z.eqb_refl. reflexivity.
Qed.

Lemma replaceById_places (u : Marker) (ms : list Marker) :
  Forall (fun m => m_id m = m_id u -> m = u) (replaceById u ms).
Proof.
  unfold replaceById. apply Forall_forall. intros m Hin Hid.
  apply in_map_iff in Hin. destruct Hin as (m0 & Hm0 & _).
  destruct (Z.eqb (m_id m0) (m_id u)) eqn:Heq; [congruence |].
  subst m. apply Z.eqb_neq in Heq. contradiction.
Qed.

Lemma last_cons_cons {A} (a b : A) (l : list A) : last (b :: l) a = last l b.
Proof.
  revert a b. induction l as [| c l IH]; intros a b; [reflexivity |].
  change (last (b :: c :: l) a) with (last (c :: l) a).
  rewrite (IH a c), (IH b c). reflexivity.
Qed.

(** While a relocation is pending and the view is not being panned, a
    non-empty succession of moves leaves the marker at the last position. *)
Lemma handleMoves_dragging (d : Dom) (cp : Project) :
  forall (es : list PointerEvent) (ps : list Pos),
    Forall2 (fun e p => getPointerPos d e = Some p) es ps ->
    forall (e : PointerEvent) (p : Pos) (s : State) (rm : Marker),
      getPointerPos d e = Some p ->
      currentProject s = Some cp ->
      relocatingMarker s = Some rm ->
      isPanning s = false ->
      exists s2,
        handleMoves d (e :: es) s = Some s2 /\
        markers s2 = replaceById (movedTo rm (last ps p)) (markers s) /\
        relocatingMarker s2 = Some (movedTo rm (last ps p)) /\
        pan s2 = pan s /\ isPanning s2 = false /\
        currentProject s2 = Some cp.
Proof.
  induction 1 as [| e2 p2 es ps He2 _ IH]; intros e p s rm He Hcp Hrm Hpan.
  - cbn [handleMoves]. rewrite (handleMove_relocating d e s cp rm p) by assumption.
    eexists. split; [reflexivity |]. cbn. auto.
  - change (handleMoves d (e :: e2 :: es) s)
      with (match handleMove d e s with
            | Some s' => handleMoves d (e2 :: es) s'
            | None => None
            end).
    rewrite (handleMove_relocating d e s cp rm p) by assumption.
    destruct (IH e2 p2
                (setMarkers (replaceById (movedTo rm p) (markers s))
                   (setRelocatingMarker (Some (movedTo rm p)) s))
                (movedTo rm p) He2 Hcp eq_refl Hpan)
      as (s2 & Hrun & Hms & Hrel & Hp & Hip & Hcp2).
    exists s2. rewrite last_cons_cons.
    split; [exact Hrun |]. split; [| split; [exact Hrel |]].
    + rewrite Hms. cbn [markers setMarkers].
      apply replaceById_same_id. reflexivity.
    + split; [exact Hp |]. split; assumption.
Qed.

(** While the view is being panned, moves leave the markers alone and set
    the pan offset from the last client position. *)
Lemma handleMoves_panning (d : Dom) (cp : Project) :
  forall (es : list PointerEvent) (ps : list Pos),
    Forall2 (fun e p => getPointerPos d e = Some p) es ps ->
    forall (e : PointerEvent) (p : Pos) (s : State),
      getPointerPos d e = Some p ->
      currentProject s = Some cp ->
      isPanning s = true ->
      exists s2,
        handleMoves d (e :: es) s = Some s2 /\
        markers s2 = markers s /\
        relocatingMarker s2 = relocatingMarker s /\
        pan s2 = mkPoint (pos_clientX (last ps p) - px (panStart s))
                         (pos_clientY (last ps p) - py (panStart s)) /\
        isPanning s2 = true.
Proof.
  induction 1 as [| e2 p2 es ps He2 _ IH]; intros e p s He Hcp Hpan.
  - cbn [handleMoves]. rewrite (handleMove_panning d e s cp p) by assumption.
    eexists. split; [reflexivity |]. cbn. auto.
  - change (handleMoves d (e :: e2 :: es) s)
      with (match handleMove d e s with
            | Some s' => handleMoves d (e2 :: es) s'
            | None => None
            end).
    rewrite (handleMove_panning d e s cp p) by assumption.
    destruct (IH e2 p2
                (setPan (mkPoint (pos_clientX p - px (panStart s))
                                 (pos_clientY p - py (panStart s))) s)
                He2 Hcp Hpan) as (s2 & Hrun & Hms & Hrel & Hp & Hip).
    exists s2. rewrite last_cons_cons. auto.
Qed.

Lemma getPointerPos_demo (c : Canvas) (img : option Image) (cx cy : R) :
  c_width c = 200%Z -> c_height c = 200%Z -> c_rect c = demoRect ->
  getPointerPos (mkDom (Some c) img) (MouseEv cx cy) = Some (posAt cx cy).
Proof.
  intros Hw Hh Hr. unfold getPointerPos, posAt. cbn.
  rewrite Hw, Hh, Hr. cbn. f_equal. f_equal; field.
Qed.

(** C4.  With a marker pending relocation and the view not being panned, a
    pointer-down at distance at most 50 from the marker changes nothing:
    the component stays in the dragging configuration it is in, and every
    following succession of pointer-moves makes the pending marker a copy
    of it whose x and y are the last pointer position (every other field
    kept), puts that copy in the collection in place of each marker with
    its id, and leaves the pan offset alone.  A pointer-down farther than
    50 raises [isPanning]; the following pointer-moves then set the pan
    offset to the last client position minus the offset recorded at the
    pointer-down, and leave the collection and the pending marker as they
    were. *)
Theorem pointer_down_near_drags_far_pans :
  forall (d : Dom) (e : PointerEvent) (s : State)
         (cp : Project) (rm : Marker) (pos : Pos),
    currentProject s = Some cp ->
    relocatingMarker s = Some rm ->
    isPanning s = false ->
    getPointerPos d e = Some pos ->
    exists s1,
      handleStart d e s = Some s1 /\
      ((distance rm pos <= 50 /\
        s1 = s /\
        mode s1 = Dragging (m_id rm) /\
        forall (e' : PointerEvent) (es : list PointerEvent)
               (p' : Pos) (ps : list Pos),
          getPointerPos d e' = Some p' ->
          Forall2 (fun e p => getPointerPos d e = Some p) es ps ->
          exists (s2 : State) (moved : Marker),
            handleMoves d (e' :: es) s1 = Some s2 /\
            relocatingMarker s2 = Some moved /\
            m_x moved = pos_x (last ps p') /\
            m_y moved = pos_y (last ps p') /\
            m_id moved = m_id rm /\
            m_label moved = m_label rm /\
            m_description moved = m_description rm /\
            m_photos moved = m_photos rm /\
            m_journalEntries moved = m_journalEntries rm /\
            m_linkedPlant moved = m_linkedPlant rm /\
            m_color moved = m_color rm /\
            markers s2 =
              map (fun m => if Z.eqb (m_id m) (m_id rm) then moved else m)
                  (markers s) /\
            pan s2 = pan s /\
            isPanning s2 = false /\
            mode s2 = Dragging (m_id rm))
       \/
       (distance rm pos > 50 /\
        isPanning s1 = true /\
        markers s1 = markers s /\
        relocatingMarker s1 = Some rm /\
        pan s1 = pan s /\
        mode s1 = Panning /\
        forall (e' : PointerEvent) (es : list PointerEvent)
               (p' : Pos) (ps : list Pos),
          getPointerPos d e' = Some p' ->
          Forall2 (fun e p => getPointerPos d e = Some p) es ps ->
          exists s2,
            handleMoves d (e' :: es) s1 = Some s2 /\
            markers s2 = markers s /\
            relocatingMarker s2 = Some rm /\
            pan s2 =
              mkPoint (pos_clientX (last ps p') - (pos_clientX pos - px (pan s)))
                      (pos_clientY (last ps p') - (pos_clientY pos - py (pan s))) /\
            isPanning s2 = true /\
            mode s2 = Panning)).
Proof.
  intros d e s cp rm pos Hcp Hrm Hpan Hpos.
  unfold handleStart. rewrite Hcp, Hpos, Hrm.
  destruct (farFrom rm pos) eqn:Hfar.
  - eexists. split; [reflexivity |]. right.
    split; [apply farFrom_distance; exact Hfar |].
    split; [reflexivity |]. split; [reflexivity |].
    split; [exact Hrm |]. split; [reflexivity |]. split; [reflexivity |].
    intros e' es p' ps He' Hes.
    destruct (handleMoves_panning d cp es ps Hes e' p'
                (setPanStart (mkPoint (pos_clientX pos - px (pan s))
                                      (pos_clientY pos - py (pan s)))
                             (setIsPanning true s))
                He' Hcp eq_refl)
      as (s2 & Hrun & Hms & Hrel & Hp & Hip).
    exists s2. split; [exact Hrun |]. split; [exact Hms |].
    split; [rewrite Hrel; exact Hrm |]. split; [exact Hp |].
    split; [exact Hip |].
    unfold mode. rewrite Hip. reflexivity.
  - exists s. split; [reflexivity |]. left.
    split; [apply farFrom_near; exact Hfar |].
    split; [reflexivity |].
    split; [unfold mode; rewrite Hpan, Hrm; reflexivity |].
    intros e' es p' ps He' Hes.
    destruct (handleMoves_dragging d cp es ps Hes e' p' s rm He' Hcp Hrm Hpan)
      as (s2 & Hrun & Hms & Hrel & Hp & Hip & _).
    exists s2, (movedTo rm (last ps p')).
    split; [exact Hrun |]. split; [exact Hrel |].
    do 9 (split; [reflexivity |]).
    split; [exact Hms |]. split; [exact Hp |]. split; [exact Hip |].
    unfold mode. rewrite Hip, Hrel. reflexivity.
Qed.

Lemma pointer_down_near_drags_far_pans_witness :
  (exists s1 s2,
     handleStart demoDom (MouseEv 60 60) pendingState = Some s1 /\
     handleMoves demoDom [MouseEv 70 40; MouseEv 55 55] s1 = Some s2 /\
     markers s2 = [markerAt 1000 55 55 "Plant 1"] /\
     relocatingMarker s2 = Some (markerAt 1000 55 55 "Plant 1") /\
     pan s2 = mkPoint 0 0) /\
  (exists s1 s2,
     handleStart demoDom (MouseEv 150 150) pendingState = Some s1 /\
     handleMoves demoDom [MouseEv 160 170] s1 = Some s2 /\
     isPanning s1 = true /\
     markers s2 = [plant1] /\
     relocatingMarker s2 = Some plant1 /\
     pan s2 = mkPoint (160 - (150 - 0)) (170 - (150 - 0))).
Proof.
  assert (Hat : forall x y,
             getPointerPos demoDom (MouseEv x y) = Some (posAt x y)).
  { intros x y.
    exact (getPointerPos_demo demoCanvas (Some demoImage) x y
                              eq_refl eq_refl eq_refl). }
  split.
  - destruct (pointer_down_near_drags_far_pans
                demoDom (MouseEv 60 60) pendingState demoProject plant1
                (posAt 60 60) eq_refl eq_refl eq_refl (Hat 60 60))
      as (s1 & Hstart & [(_ & _ & _ & Hmoves) | (Hfar & _)]).
    + destruct (Hmoves (MouseEv 70 40) [MouseEv 55 55]
                       (posAt 70 40) [posAt 55 55] (Hat 70 40)
                       (Forall2_cons _ _ (Hat 55 55) (Forall2_nil _)))
        as (s2 & moved & Hrun & Hrel & Hx & Hy & Hid & Hl & Hd & Hph & Hj
            & Hlp & Hc & Hms & Hp & _).
      assert (Hmoved : moved = markerAt 1000 55 55 "Plant 1").
      { destruct moved. cbn in Hx, Hy, Hid, Hl, Hd, Hph, Hj, Hlp, Hc.
        subst. reflexivity. }
      exists s1, s2. split; [exact Hstart |]. split; [exact Hrun |].
      split; [rewrite Hms, Hmoved; reflexivity |].
      split; [rewrite Hrel, Hmoved; reflexivity | exact Hp].
    + exfalso. apply farFrom_distance in Hfar.
      unfold farFrom, Rgtb in Hfar. cbn in Hfar.
      apply Rltb_true_iff in Hfar.
      apply radius_lt_sqrt in Hfar; [lra | apply sum_squares_nonneg | lra].
  - destruct (pointer_down_near_drags_far_pans
                demoDom (MouseEv 150 150) pendingState demoProject plant1
                (posAt 150 150) eq_refl eq_refl eq_refl (Hat 150 150))
      as (s1 & Hstart & [(Hnear & _) | (_ & Hip & _ & _ & _ & _ & Hmoves)]).
    + exfalso. apply farFrom_near in Hnear.
      unfold farFrom, Rgtb in Hnear. cbn in Hnear.
      apply Rltb_false_iff in Hnear.
      apply Hnear.
      apply radius_lt_sqrt; [apply sum_squares_nonneg | lra | lra].
    + destruct (Hmoves (MouseEv 160 170) [] (posAt 160 170) []
                       (Hat 160 170) (Forall2_nil _))
        as (s2 & Hrun & Hms & Hrel & Hp & _).
      exists s1, s2. split; [exact Hstart |]. split; [exact Hrun |].
      split; [exact Hip |]. split; [exact Hms |].
      split; [exact Hrel | exact Hp].
Defined.

(** C10.  While a marker is pending relocation and the view is not being
    panned, a pointer-move alone, whatever came before it and without any
    pointer-down, replaces that marker in the collection by a copy at the
    pointer's image position and makes that copy the pending marker. *)
Theorem pointer_move_relocates_pending_marker :
  forall (d : Dom) (e : PointerEvent) (s : State)
         (cp : Project) (rm : Marker) (pos : Pos),
    currentProject s = Some cp ->
    relocatingMarker s = Some rm ->
    isPanning s = false ->
    getPointerPos d e = Some pos ->
    exists s',
      handleMove d e s = Some s' /\
      relocatingMarker s' = Some (movedTo rm pos) /\
      markers s' = replaceById (movedTo rm pos) (markers s) /\
      Forall (fun m => m_id m = m_id rm ->
                       m_x m = pos_x pos /\ m_y m = pos_y pos) (markers s') /\
      map m_id (markers s') = map m_id (markers s) /\
      isPanning s' = false.
Proof.
  intros d e s cp rm pos Hcp Hrm Hpan Hpos.
  rewrite (handleMove_relocating d e s cp rm pos) by assumption.
  eexists. split; [reflexivity |]. cbn.
  split; [reflexivity |]. split; [reflexivity |].
  split; [| split; [| exact Hpan]].
  - eapply Forall_impl; [| apply replaceById_places].
    cbn. intros m Hm Hid. rewrite (Hm Hid). cbn. auto.
  - unfold replaceById. rewrite map_map. apply map_ext_in.
    intros m _. destruct (Z.eqb (m_id m) (m_id (movedTo rm pos))) eqn:Heq;
      [| reflexivity].
    apply Z.eqb_eq in Heq. symmetry. exact Heq.
Qed.

Lemma pointer_move_relocates_pending_marker_witness :
  exists s',
    handleMove demoDom (MouseEv 60 60) pendingState = Some s' /\
    markers s' = [markerAt 1000 60 60 "Plant 1"].
Proof.
  destruct (pointer_move_relocates_pending_marker
              demoDom (MouseEv 60 60) pendingState demoProject plant1 (posAt 60 60)
              eq_refl eq_refl eq_refl
              (getPointerPos_demo demoCanvas (Some demoImage) 60 60
                                  eq_refl eq_refl eq_refl))
    as (s' & Hmove & _ & Hms & _).
  exists s'. split; [exact Hmove |]. rewrite Hms. reflexivity.
Defined.

(** ** Label box *)

(** C6.  The label box of a marker at (x,y) whose label measures [w] on a
    canvas of width [W] is [w + 12] wide and 26 high, is what the redraw
    hands to [roundRect], and is anchored at (x+14, y-13) unless
    [x + 14 + (w + 12) > W], in which case it is anchored at
    (x - 14 - (w+12), y-13).  With W = 200, x = 190 and a measured width
    of 50 the anchor is x = 114, left of the marker, not 204. *)
Theorem labelBox_flips_at_right_edge :
  (forall (measureText : string -> R) (W : Z)
          (rel : option Marker) (marker : Marker),
      let w := measureText (m_label marker) in
      let b := labelBox measureText W marker in
      boxWidth b = w + 12 /\
      boxHeight b = 26 /\
      labelY b = m_y marker - 13 /\
      ((m_x marker + 14 + (w + 12) > IZR W /\
        labelX b = m_x marker - 14 - (w + 12))
       \/
       (m_x marker + 14 + (w + 12) <= IZR W /\
        labelX b = m_x marker + 14)) /\
      In (FillRoundRect (labelX b) (labelY b) (boxWidth b) (boxHeight b) 6
                        "rgba(0, 0, 0, 0.85)")
         (drawMarker measureText W rel marker))
  /\ labelX (labelBox (fun _ => 50) 200 (markerAt 7 190 100 "Tomato")) = 114
  /\ 114 < 190.
Proof.
  split; [| split; [| lra]].
  - intros measureText W rel marker w b. subst w b.
    unfold labelBox, LABEL_PADDING. cbn.
    split; [ring |]. split; [reflexivity |]. split; [reflexivity |].
    split.
    + unfold Rgtb.
      destruct (Rltb (IZR W) (m_x marker + 14 + (measureText (m_label marker) + 6 * 2)))
        eqn:Hflip.
      * left. apply Rltb_true_iff in Hflip. split; [lra | ring].
      * right. apply Rltb_false_iff in Hflip. split; [lra | reflexivity].
    + right. right. left. reflexivity.
  - unfold labelBox, LABEL_PADDING, Rgtb. cbn.
    assert (Hflip : Rltb 200 (190 + 14 + (50 + 6 * 2)) = true)
      by (apply Rltb_true_iff; lra).
    rewrite Hflip. lra.
Qed.

(** ** Image-ready guard *)

(** C8.  A redraw attempted while the image is not ready (no image
    element, image not complete, or [imageLoaded] unset) returns the DOM
    as it found it: the bitmap keeps its size and nothing is drawn on it.
    The effect is a total function from the state to a DOM, so it raises
    nothing and sets no state cell; the render that follows a handler
    leaves the DOM alone as well. *)
Theorem drawEffect_waits_for_image :
  forall (measureText : string -> R) (s : State) (d : Dom),
    imageReady s d = false ->
    drawEffect measureText s d = d /\
    dom (commit measureText (mkWorld s d)) = d.
Proof.
  intros measureText s d Hready.
  assert (Hdraw : drawEffect measureText s d = d).
  { unfold drawEffect. unfold imageReady in Hready.
    destruct (currentProject s); [| reflexivity].
    destruct (canvasRef d); [| reflexivity].
    destruct (imageRef d); [| reflexivity].
    rewrite Hready. reflexivity. }
  split; [exact Hdraw |].
  unfold commit. cbn. rewrite Hdraw. destruct (drawDepsChanged s); reflexivity.
Qed.

Lemma drawEffect_waits_for_image_witness :
  drawEffect demoMeasure (loadProject demoProject pendingState) demoDom = demoDom.
Proof.
  apply (drawEffect_waits_for_image
           demoMeasure (loadProject demoProject pendingState) demoDom).
  reflexivity.
Defined.

(** Once the image is ready the redraw sizes the bitmap to the image
    and draws the markers of the collection, in order. *)
Lemma drawEffect_ready (measureText : string -> R) (s : State)
      (cp : Project) (canvas : Canvas) (img : Image) :
  currentProject s = Some cp ->
  img_complete img = true ->
  imageLoaded s = true ->
  drawEffect measureText s (mkDom (Some canvas) (Some img)) =
    mkDom (Some (mkCanvas (img_naturalWidth img) (img_naturalHeight img)
                   (c_rect canvas)
                   (ClearRect 0 0 (IZR (img_naturalWidth img))
                              (IZR (img_naturalHeight img))
                    :: flat_map (drawMarker measureText (img_naturalWidth img)
                                            (relocatingMarker s))
                                (markers s))))
          (Some img).
Proof.
  intros Hcp Hc Hl. unfold drawEffect. cbn. rewrite Hcp, Hc, Hl. reflexivity.
Qed.

(** ** Project switching *)

Ltac break_match :=
  repeat match goal with
         | H : context [match ?x with _ => _ end] |- _ => destruct x eqn:?
         | |- context [match ?x with _ => _ end] => destruct x eqn:?
         end.

Lemma autoSaveEffect_imageLoaded (s : State) :
  imageLoaded (autoSaveEffect s) = imageLoaded s.
Proof. unfold autoSaveEffect, saveData. break_match; reflexivity. Qed.

Lemma commit_imageLoaded (measureText : string -> R) (w : World) :
  imageLoaded (ui (commit measureText w)) = imageLoaded (ui w).
Proof.
  unfold commit. cbn [ui clearDeps imageLoaded]. apply autoSaveEffect_imageLoaded.
Qed.

(** No handler but the image's own [onLoad] raises [imageLoaded]. *)
Lemma handle_keeps_image_unloaded (ev : Event) (w w' : World) :
  ev <> ImageOnLoad ->
  handle ev w = Some w' ->
  imageLoaded (ui w) = false ->
  imageLoaded (ui w') = false.
Proof.
  intros Hev Hh Hl. destruct w as [s d]. cbn in Hl.
  destruct ev; try congruence; cbn in Hh;
    unfold handleStart, handleMove, handleCanvasClick, finishRelocation,
      saveMarkerDetails, deleteMarker, startRelocation, dataLoaded,
      deleteCurrentProject, saveResponse in Hh;
    break_match; try discriminate;
    repeat match goal with
           | H : Some _ = Some _ |- _ => inversion H; clear H; subst
           end;
    cbn; solve [assumption | reflexivity].
Qed.

Lemma run_keeps_image_unloaded (measureText : string -> R) :
  forall (evs : list Event) (w w' : World),
    ~ In ImageOnLoad evs ->
    run measureText evs w = Some w' ->
    imageLoaded (ui w) = false ->
    imageLoaded (ui w') = false.
Proof.
  induction evs as [| ev evs IH]; intros w w' Hnot Hrun Hl.
  - cbn in Hrun. inversion Hrun. subst. exact Hl.
  - cbn [run] in Hrun. unfold step in Hrun.
    destruct (handle ev w) as [w1 |] eqn:Hh; [| discriminate].
    apply (IH (commit measureText w1) w'); [| exact Hrun |].
    + intro Hin. apply Hnot. right. exact Hin.
    + rewrite commit_imageLoaded.
      apply (handle_keeps_image_unloaded ev w w1); [| exact Hh | exact Hl].
      intro Heq. apply Hnot. left. exact Heq.
Qed.

(** C5.  [loadProject p] makes [p] the current project, makes the marker
    collection exactly the list [p] holds and the journal exactly the
    journal [p] holds (the empty list when [p] has none), whatever the
    component held before, resets the view to scale 1 and pan (0,0),
    clears the pending relocation and lowers [imageLoaded]; and
    [imageLoaded] stays lowered through every later run of events in
    which the image's [onLoad] does not fire. *)
Theorem loadProject_switches_everything :
  forall (measureText : string -> R) (project : Project) (s : State) (d : Dom)
         (evs : list Event) (w' : World),
    ~ In ImageOnLoad evs ->
    run measureText evs (commit measureText (mkWorld (loadProject project s) d))
      = Some w' ->
    let s' := loadProject project s in
    currentProject s' = Some project /\
    markers s' = match p_markers project with
                 | Some ms => ms
                 | None => []
                 end /\
    globalJournalEntries s' = match p_globalJournalEntries project with
                              | Some js => js
                              | None => []
                              end /\
    scale s' = 1 /\
    pan s' = mkPoint 0 0 /\
    relocatingMarker s' = None /\
    imageLoaded s' = false /\
    imageLoaded (ui w') = false.
Proof.
  intros measureText project s d evs w' Hnot Hrun s'.
  split; [reflexivity |].
  split; [subst s'; cbn; destruct (p_markers project); reflexivity |].
  split; [subst s'; cbn; destruct (p_globalJournalEntries project);
          reflexivity |].
  repeat (split; [reflexivity |]).
  apply (run_keeps_image_unloaded measureText evs _ w' Hnot Hrun).
  rewrite commit_imageLoaded. reflexivity.
Qed.

Lemma loadProject_switches_everything_witness :
  (exists w',
     run demoMeasure [PointerUp; ToggleSidebar]
         (commit demoMeasure (mkWorld (loadProject projectA pendingState) demoDom))
       = Some w' /\
     markers pendingState = [plant1] /\
     markers (loadProject projectA pendingState) = [markerA; markerB] /\
     globalJournalEntries (loadProject projectA pendingState) = [sownEntry] /\
     scale (loadProject projectA pendingState) = 1 /\
     imageLoaded (ui w') = false) /\
  (exists w',
     run demoMeasure [PointerUp; ToggleSidebar]
         (commit demoMeasure
            (mkWorld (loadProject projectB (loadProject projectA pendingState))
                     demoDom))
       = Some w' /\
     markers (loadProject projectB (loadProject projectA pendingState)) = [] /\
     globalJournalEntries
       (loadProject projectB (loadProject projectA pendingState)) = [] /\
     imageLoaded (ui w') = false).
Proof.
  assert (Hnot : ~ In ImageOnLoad [PointerUp; ToggleSidebar]).
  { intros [H | [H | []]]; discriminate H. }
  split.
  - eexists. split; [reflexivity |].
    destruct (loadProject_switches_everything
                demoMeasure projectA pendingState demoDom
                [PointerUp; ToggleSidebar] _ Hnot eq_refl)
      as (_ & Hms & Hjs & Hscale & _ & _ & _ & Himg).
    split; [reflexivity |]. split; [exact Hms |]. split; [exact Hjs |].
    split; [exact Hscale | exact Himg].
  - eexists. split; [reflexivity |].
    destruct (loadProject_switches_everything
                demoMeasure projectB (loadProject projectA pendingState) demoDom
                [PointerUp; ToggleSidebar] _ Hnot eq_refl)
      as (_ & Hms & Hjs & _ & _ & _ & _ & Himg).
    split; [exact Hms |]. split; [exact Hjs | exact Himg].
Defined.

(** ** Concrete sessions *)

Lemma demoPos_posAt (x y : R) : demoPos x y = posAt x y.
Proof. unfold demoPos, posAt. f_equal; field. Qed.

Lemma newMarker_demo : newMarker 1000 (demoPos 50 50) [] = plant1.
Proof. rewrite demoPos_posAt. reflexivity. Qed.

Lemma movedTo_demo (m : Marker) (x y : R) :
  movedTo m (demoPos x y) = movedTo m (posAt x y).
Proof. rewrite demoPos_posAt. reflexivity. Qed.

Lemma run_app (measureText : string -> R) (evs1 evs2 : list Event) :
  forall w : World,
    run measureText (evs1 ++ evs2) w =
    match run measureText evs1 w with
    | Some w1 => run measureText evs2 w1
    | None => None
    end.
Proof.
  induction evs1 as [| ev evs1 IH]; intro w; [reflexivity |].
  cbn [app run]. destruct (step measureText ev w); [apply IH | reflexivity].
Qed.

Lemma allowed_app (measureText : string -> R) (evs1 evs2 : list Event) :
  forall w w1 : World,
    allowed measureText evs1 w = true ->
    run measureText evs1 w = Some w1 ->
    allowed measureText evs2 w1 = true ->
    allowed measureText (evs1 ++ evs2) w = true.
Proof.
  induction evs1 as [| ev evs1 IH]; intros w w1 Ha Hr Ha2.
  - cbn in Hr. inversion Hr. subst. exact Ha2.
  - cbn [app allowed run] in *.
    apply andb_true_iff in Ha. destruct Ha as [Hen Ha].
    rewrite Hen. cbn [andb].
    destruct (step measureText ev w) as [w' |]; [| discriminate].
    apply (IH w' w1); assumption.
Qed.

(** The session [placeAndRelocate] is one the user can perform, and it
    leads to [pendingState]. *)
Lemma run_placeAndRelocate :
  run demoMeasure placeAndRelocate initialWorld
  = Some (shown (pendingAt (newMarker 1000 (demoPos 50 50) []))).
Proof. vm_compute. reflexivity. Qed.

Lemma allowed_placeAndRelocate :
  allowed demoMeasure placeAndRelocate initialWorld = true.
Proof. vm_compute. reflexivity. Qed.

Lemma placeAndRelocate_pending :
  exists w,
    run demoMeasure placeAndRelocate initialWorld = Some w /\
    ui w = pendingState /\
    allowed demoMeasure placeAndRelocate initialWorld = true.
Proof.
  eexists. split; [apply run_placeAndRelocate |].
  split; [| apply allowed_placeAndRelocate].
  cbn [shown ui]. rewrite newMarker_demo. reflexivity.
Qed.

(** ** Cancelling a relocation *)

Lemma run_dragAndCancel :
  run demoMeasure dragAndCancel initialWorld
  = Some (shown (placedAt (movedTo (newMarker 1000 (demoPos 50 50) [])
                                   (demoPos 55 55)))).
Proof. vm_compute. reflexivity. Qed.

Lemma allowed_dragAndCancel :
  allowed demoMeasure dragAndCancel initialWorld = true.
Proof. vm_compute. reflexivity. Qed.

(** C1, on the code.  A marker is placed at (50,50), its relocation is
    started, the pointer moves through (60,60), (70,40) and (55,55), and
    the relocation is cancelled: the marker is at (55,55), not back at
    (50,50).  Each move has been auto-saved into the project list, which
    is where cancel looks for the position to restore. *)
Theorem cancel_keeps_dragged_position :
  (exists w0,
      run demoMeasure placeAndRelocate initialWorld = Some w0 /\
      markers (ui w0) = [markerAt 1000 50 50 "Plant 1"] /\
      relocatingMarker (ui w0) = Some (markerAt 1000 50 50 "Plant 1")) /\
  exists w,
    run demoMeasure dragAndCancel initialWorld = Some w /\
    allowed demoMeasure dragAndCancel initialWorld = true /\
    markers (ui w) = [markerAt 1000 55 55 "Plant 1"] /\
    markers (ui w) <> [markerAt 1000 50 50 "Plant 1"] /\
    relocatingMarker (ui w) = None.
Proof.
  split.
  { destruct placeAndRelocate_pending as (w0 & Hrun & Hui & _).
    exists w0. split; [exact Hrun |]. rewrite Hui. split; reflexivity. }
  eexists. split; [apply run_dragAndCancel |].
  split; [apply allowed_dragAndCancel |].
  cbn [shown ui placedAt markers relocatingMarker].
  rewrite movedTo_demo, newMarker_demo.
  split; [reflexivity |]. split; [| reflexivity].
  intro Heq. injection Heq as Hx _. cbn in Hx. lra.
Qed.

Lemma commit_markers (measureText : string -> R) (w : World) :
  markers (ui (commit measureText w)) = markers (ui w).
Proof.
  unfold commit. cbn [ui clearDeps markers].
  unfold autoSaveEffect, saveData. break_match; reflexivity.
Qed.

Lemma commit_relocatingMarker (measureText : string -> R) (w : World) :
  relocatingMarker (ui (commit measureText w)) = relocatingMarker (ui w).
Proof.
  unfold commit. cbn [ui clearDeps relocatingMarker].
  unfold autoSaveEffect, saveData. break_match; reflexivity.
Qed.

(** Once the auto-save has run on a state whose markers changed, cancel
    finds in the project list the very markers of the collection, so it
    puts nothing back. *)
Lemma finishRelocation_after_autosave (s : State) (cp : Project) (u : Marker) :
  currentProject s = Some cp ->
  relocatingMarker s = Some u ->
  saveDepsChanged s = true ->
  Forall (fun m => m_id m = m_id u -> m = u) (markers s) ->
  exists s2,
    finishRelocation false (clearDeps (autoSaveEffect s)) = Some s2 /\
    markers s2 = markers s /\
    relocatingMarker s2 = None.
Proof.
  intros Hcp Hrel Hdeps Hall.
  unfold autoSaveEffect, saveData. rewrite Hdeps, Hcp.
  unfold finishRelocation, findOriginal.
  cbn [clearDeps setProjects relocatingMarker currentProject projects markers].
  rewrite Hrel, Hcp.
  destruct (find (fun p => Z.eqb (p_id p) (p_id cp))
                 (map (fun p => if Z.eqb (p_id p) (p_id cp)
                                then snapshot cp s else p) (projects s)))
    as [p |] eqn:Hfind.
  - apply find_some in Hfind. destruct Hfind as [Hin Hid].
    apply in_map_iff in Hin. destruct Hin as (p0 & Hp0 & _).
    assert (Hp : p = snapshot cp s).
    { destruct (Z.eqb (p_id p0) (p_id cp)) eqn:H0; [congruence |].
      rewrite <- Hp0 in Hid. congruence. }
    rewrite Hp. cbn [snapshot p_markers].
    destruct (find (fun m => Z.eqb (m_id m) (m_id u)) (markers s))
      as [original |] eqn:Horig.
    + eexists. split; [reflexivity |]. cbn. split; [| reflexivity].
      apply find_some in Horig. destruct Horig as [Hino Hido].
      apply Z.eqb_eq in Hido.
      assert (Ho : original = u).
      { rewrite Forall_forall in Hall. apply Hall; assumption. }
      subst original.
      rewrite <- (map_id (markers s)) at 2. apply map_ext_in.
      intros m Hm. destruct (Z.eqb (m_id m) (m_id u)) eqn:Heq; [| reflexivity].
      apply Z.eqb_eq in Heq. rewrite Forall_forall in Hall.
      symmetry. apply Hall; assumption.
    + eexists. split; [reflexivity |]. cbn. split; reflexivity.
  - eexists. split; [reflexivity |]. cbn. split; reflexivity.
Qed.

(** The defect behind C1, for every session: whenever a pointer-move has
    relocated the pending marker, cancelling leaves the marker collection
    exactly as the move left it. *)
Lemma cancel_after_move_restores_nothing (measureText : string -> R)
      (w : World) (e : PointerEvent) (cp : Project) (rm : Marker) (pos : Pos) :
  currentProject (ui w) = Some cp ->
  relocatingMarker (ui w) = Some rm ->
  isPanning (ui w) = false ->
  getPointerPos (dom w) e = Some pos ->
  exists w1 w2,
    step measureText (PointerMove e) w = Some w1 /\
    step measureText (FinishRelocation false) w1 = Some w2 /\
    markers (ui w1) = replaceById (movedTo rm pos) (markers (ui w)) /\
    markers (ui w2) = markers (ui w1) /\
    relocatingMarker (ui w2) = None.
Proof.
  intros Hcp Hrel Hpan Hpos.
  unfold step at 1. cbn [handle].
  rewrite (handleMove_relocating (dom w) e (ui w) cp rm pos) by assumption.
  set (s1 := setMarkers (replaceById (movedTo rm pos) (markers (ui w)))
               (setRelocatingMarker (Some (movedTo rm pos)) (ui w))).
  destruct (finishRelocation_after_autosave s1 cp (movedTo rm pos))
    as (s2 & Hfin & Hms & Hrel2).
  - exact Hcp.
  - reflexivity.
  - reflexivity.
  - apply replaceById_places.
  - eexists. eexists. split; [reflexivity |].
    unfold step. cbn [handle]. unfold commit at 1. cbn [ui dom].
    rewrite Hfin. split; [reflexivity |].
    rewrite !commit_markers, commit_relocatingMarker. cbn [ui].
    rewrite Hms. auto.
Qed.

(** ** Deleting a marker *)

Lemma getPointerPos_shown (s : State) (x y : R) :
  getPointerPos (dom (shown s)) (MouseEv x y) = Some (posAt x y).
Proof.
  unfold shown, drawEffect. cbn [dom demoDom canvasRef imageRef].
  destruct (currentProject s);
    [| apply getPointerPos_demo; reflexivity].
  cbn [demoImage img_complete andb].
  destruct (imageLoaded s); apply getPointerPos_demo; reflexivity.
Qed.

(** [deleteMarker] closes the dialogs and forgets the selection, and
    leaves [relocatingMarker] as it was. *)
Lemma deleteMarker_keeps_relocation (s s' : State) :
  deleteMarker s = Some s' ->
  relocatingMarker s' = relocatingMarker s /\
  selectedItem s' = None /\
  forall sel, selectedItem s = Some sel ->
              markers s' = filter (fun m => negb (Z.eqb (m_id m) (m_id sel)))
                                  (markers s).
Proof.
  unfold deleteMarker. intro H.
  destruct (selectedItem s) as [sel |]; [| destruct (markers s)];
    inversion H; subst; cbn; repeat split; try reflexivity;
    intros sel' Hsel; inversion Hsel; reflexivity.
Qed.

Lemma run_deleteWhileRelocating :
  run demoMeasure deleteWhileRelocating initialWorld
  = Some (shown (orphanedAt (newMarker 1000 (demoPos 50 50) []))).
Proof. vm_compute. reflexivity. Qed.

Lemma allowed_deleteWhileRelocating :
  allowed demoMeasure deleteWhileRelocating initialWorld = true.
Proof. vm_compute. reflexivity. Qed.

(** C3, on the code.  A marker is placed and its relocation started; it is
    then opened from the side bar and deleted.  No handler raises and the
    redraw shows no marker, but the deleted marker is still the pending
    relocation: the component stays in its dragging configuration, and
    the next pointer-move goes on relocating a marker that is no longer
    in the collection. *)
Theorem delete_leaves_relocation_pending :
  exists w w',
    run demoMeasure deleteWhileRelocating initialWorld = Some w /\
    allowed demoMeasure deleteWhileRelocating initialWorld = true /\
    markers (ui w) = [] /\
    selectedItem (ui w) = None /\
    relocatingMarker (ui w) = Some plant1 /\
    mode (ui w) = Dragging 1000 /\
    option_map c_ops (canvasRef (dom w)) = Some [ClearRect 0 0 200 200] /\
    enabled (PointerMove (MouseEv 60 60)) w = true /\
    step demoMeasure (PointerMove (MouseEv 60 60)) w = Some w' /\
    markers (ui w') = [] /\
    relocatingMarker (ui w') = Some (markerAt 1000 60 60 "Plant 1").
Proof.
  eexists. eexists. split; [apply run_deleteWhileRelocating |].
  split; [apply allowed_deleteWhileRelocating |].
  rewrite newMarker_demo.
  split; [reflexivity |]. split; [reflexivity |]. split; [reflexivity |].
  split; [reflexivity |]. split; [reflexivity |]. split; [reflexivity |].
  unfold step. cbn [handle].
  rewrite (handleMove_relocating _ (MouseEv 60 60) (ui (shown (orphanedAt plant1)))
             demoProject plant1 (posAt 60 60) eq_refl eq_refl eq_refl
             (getPointerPos_shown _ 60 60)).
  split; [reflexivity |].
  rewrite commit_markers, commit_relocatingMarker.
  split; reflexivity.
Qed.

(** ** Marker identifiers *)

Lemma handleCanvasClick_creates (now : Z) (d : Dom) (e : PointerEvent)
      (s : State) (cp : Project) (pos : Pos) :
  currentProject s = Some cp ->
  relocatingMarker s = None ->
  tool s = ToolMarker ->
  getPointerPos d e = Some pos ->
  hitMarker (markers s) pos = None ->
  handleCanvasClick now d e s =
    Some (openMarkerDialog (newMarker now pos (markers s))
            (setMarkers (markers s ++ [newMarker now pos (markers s)]) s)).
Proof.
  intros Hcp Hrel Htool Hpos Hhit. unfold handleCanvasClick.
  rewrite Hcp, Hrel, Hpos, Hhit, Htool. reflexivity.
Qed.

Lemma NoDup_snoc {A} (l : list A) (a : A) :
  NoDup l -> ~ In a l -> NoDup (l ++ [a]).
Proof.
  induction 1 as [| b l Hb Hl IH]; intro Ha; cbn.
  - constructor; [intros [] | constructor].
  - constructor.
    + intro Hin. apply in_app_or in Hin. destruct Hin as [Hin | [Heq | []]].
      * contradiction.
      * apply Ha. left. symmetry. exact Heq.
    + apply IH. intro Hin. apply Ha. right. exact Hin.
Qed.

Lemma run_placeAndSave :
  run demoMeasure placeAndSave initialWorld
  = Some (shown (placedAt (newMarker 1000 (demoPos 50 50) []))).
Proof. vm_compute. reflexivity. Qed.

Lemma allowed_placeAndSave :
  allowed demoMeasure placeAndSave initialWorld = true.
Proof. vm_compute. reflexivity. Qed.

(** A click at (150,150) hits no marker when the only marker is at
    (50,50). *)
Lemma hitMarker_plant1_far :
  hitMarker [plant1] (posAt 150 150) = None.
Proof.
  unfold hitMarker. cbn [find].
  destruct (hitTest (posAt 150 150) plant1) eqn:Hhit; [| reflexivity].
  apply hitTest_squares in Hhit. cbn in Hhit. lra.
Qed.

Lemma step_second_click :
  step demoMeasure (Click (MouseEv 150 150) 1000) (shown (placedAt plant1))
  = Some (commit demoMeasure
            (mkWorld
               (openMarkerDialog (newMarker 1000 (posAt 150 150) [plant1])
                  (setMarkers [plant1; newMarker 1000 (posAt 150 150) [plant1]]
                              (placedAt plant1)))
               (dom (shown (placedAt plant1))))).
Proof.
  unfold step. cbn [handle].
  rewrite (handleCanvasClick_creates 1000 _ (MouseEv 150 150)
             (ui (shown (placedAt plant1))) demoProject (posAt 150 150)
             eq_refl eq_refl eq_refl (getPointerPos_shown _ 150 150)
             hitMarker_plant1_far).
  reflexivity.
Qed.

(** C9, as stated, fails: two markers created while [Date.now()] reads
    the same value get the same id. *)
Lemma creations_at_same_clock_collide :
  exists w,
    run demoMeasure placeTwiceSameClock initialWorld = Some w /\
    allowed demoMeasure placeTwiceSameClock initialWorld = true /\
    map m_id (markers (ui w)) = [1000; 1000]%Z /\
    ~ NoDup (map m_id (markers (ui w))).
Proof.
  eexists. split; [| split].
  - unfold placeTwiceSameClock. rewrite run_app, run_placeAndSave.
    rewrite newMarker_demo. cbn [run]. rewrite step_second_click. reflexivity.
  - unfold placeTwiceSameClock.
    apply (allowed_app demoMeasure placeAndSave _ initialWorld
             (shown (placedAt plant1))).
    + apply allowed_placeAndSave.
    + rewrite run_placeAndSave, newMarker_demo. reflexivity.
    + cbn [allowed]. rewrite step_second_click. reflexivity.
  - rewrite commit_markers. cbn. split; [reflexivity |].
    intro Hnd. inversion Hnd as [| x l Hnotin _]. apply Hnotin. left. reflexivity.
Qed.

(** C9, amended.  A marker created by a click gets the clock reading as
    its id; when that reading is not the id of a marker already in the
    collection, the ids of the collection stay pairwise distinct. *)
Theorem click_keeps_ids_distinct_when_clock_is_fresh :
  forall (now : Z) (d : Dom) (e : PointerEvent) (s s' : State),
    handleCanvasClick now d e s = Some s' ->
    NoDup (map m_id (markers s)) ->
    ~ In now (map m_id (markers s)) ->
    NoDup (map m_id (markers s')) /\
    (markers s' = markers s \/
     exists nm, markers s' = markers s ++ [nm] /\ m_id nm = now).
Proof.
  intros now d e s s' Hclick Hnd Hfresh.
  unfold handleCanvasClick in Hclick.
  break_match; inversion Hclick; subst; cbn;
    try (split; [exact Hnd | left; reflexivity]).
  split.
  - rewrite map_app. cbn. apply NoDup_snoc; assumption.
  - right. eexists. split; reflexivity.
Qed.

Lemma click_keeps_ids_distinct_when_clock_is_fresh_witness :
  NoDup (map m_id [plant1; newMarker 2000 (posAt 150 150) [plant1]]).
Proof.
  assert (Hnd : NoDup (map m_id (markers (placedAt plant1)))).
  { cbn. constructor; [intros [] | constructor]. }
  assert (Hfresh : ~ In 2000%Z (map m_id (markers (placedAt plant1)))).
  { cbn. intros [H | []]. discriminate H. }
  exact (proj1 (click_keeps_ids_distinct_when_clock_is_fresh
                  2000 (dom (shown (placedAt plant1))) (MouseEv 150 150)
                  (placedAt plant1) _
                  (handleCanvasClick_creates 2000 _ (MouseEv 150 150)
                     (placedAt plant1) demoProject (posAt 150 150)
                     eq_refl eq_refl eq_refl (getPointerPos_shown _ 150 150)
                     hitMarker_plant1_far)
                  Hnd Hfresh)).
Defined.

(** * Further properties of the component and of the service *)

(** ** Image resizing *)

Lemma Int_part_IZR (z : Z) : Int_part (IZR z) = z.
Proof. symmetry. apply Int_part_spec. lra. Qed.



(** ** Zoom *)

Lemma commit_scale (measureText : string -> R) (w : World) :
  scale (ui (commit measureText w)) = scale (ui w).
Proof.
  unfold commit. cbn [ui clearDeps scale].
  unfold autoSaveEffect, saveData. break_match; reflexivity.
Qed.

Lemma handleZoom_clamps (delta : R) (s : State) :
  0.2 <= scale (handleZoom delta s) <= 5.
Proof.
  unfold handleZoom. cbn [setScale scale]. split.
  - apply Rmax_l.
  - apply Rmax_lub; [lra | apply Rmin_l].
Qed.

Lemma handle_keeps_scale_in_range (ev : Event) (w w' : World) :
  handle ev w = Some w' ->
  0.2 <= scale (ui w) <= 5 ->
  0.2 <= scale (ui w') <= 5.
Proof.
  intros Hh Hs. destruct w as [s d]. cbn in Hs.
  destruct ev; cbn in Hh;
    try (inversion Hh; subst; cbn [ui]; apply handleZoom_clamps);
    unfold handleStart, handleMove, handleCanvasClick, finishRelocation,
      saveMarkerDetails, deleteMarker, startRelocation, dataLoaded,
      imageUploaded, deleteCurrentProject, saveResponse, onLoad in Hh;
    break_match; try discriminate;
    repeat match goal with
           | H : Some _ = Some _ |- _ => inversion H; clear H; subst
           end;
    cbn; solve [assumption | lra].
Qed.

(** X2.  The zoom scale never leaves the interval from 0.2 to 5: when it
    starts there, it is there after every run of events, whatever zoom
    steps, view resets and project switches the run contains. *)
Theorem run_keeps_scale_in_range :
  forall (measureText : string -> R) (evs : list Event) (w w' : World),
    0.2 <= scale (ui w) <= 5 ->
    run measureText evs w = Some w' ->
    0.2 <= scale (ui w') <= 5.
Proof.
  intros measureText evs. induction evs as [| ev evs IH]; intros w w' Hs Hrun.
  - cbn in Hrun. inversion Hrun. subst. exact Hs.
  - cbn [run] in Hrun. unfold step in Hrun.
    destruct (handle ev w) as [w1 |] eqn:Hh; [| discriminate].
    apply (IH (commit measureText w1) w'); [| exact Hrun].
    rewrite commit_scale. apply (handle_keeps_scale_in_range ev w w1 Hh Hs).
Qed.

Lemma run_keeps_scale_in_range_witness :
  exists w',
    run demoMeasure [Zoom 3; Zoom 3; Zoom (-10); ResetView; Zoom 0.5]
        (mkWorld pendingState demoDom) = Some w' /\
    0.2 <= scale (ui w') <= 5.
Proof.
  eexists. split; [reflexivity |].
  refine (run_keeps_scale_in_range demoMeasure
            [Zoom 3; Zoom 3; Zoom (-10); ResetView; Zoom 0.5]
            (mkWorld pendingState demoDom) _ _ eq_refl).
  cbn. lra.
Defined.

(** ** Pointer positions *)

(** X3.  [getPointerPos] maps the displayed rectangle of the canvas onto
    its bitmap: a pointer inside the rectangle gets a position inside the
    bitmap, and the client point is recovered from that position by the
    inverse scaling. *)
Theorem getPointerPos_maps_rect_onto_bitmap :
  forall (d : Dom) (canvas : Canvas) (e : PointerEvent) (cx cy : R),
    canvasRef d = Some canvas ->
    clientOf e = Some (cx, cy) ->
    0 < rect_width (c_rect canvas) ->
    0 < rect_height (c_rect canvas) ->
    0 < IZR (c_width canvas) ->
    0 < IZR (c_height canvas) ->
    rect_left (c_rect canvas) <= cx
      <= rect_left (c_rect canvas) + rect_width (c_rect canvas) ->
    rect_top (c_rect canvas) <= cy
      <= rect_top (c_rect canvas) + rect_height (c_rect canvas) ->
    exists pos,
      getPointerPos d e = Some pos /\
      0 <= pos_x pos <= IZR (c_width canvas) /\
      0 <= pos_y pos <= IZR (c_height canvas) /\
      cx = rect_left (c_rect canvas)
           + pos_x pos * (rect_width (c_rect canvas) / IZR (c_width canvas)) /\
      cy = rect_top (c_rect canvas)
           + pos_y pos * (rect_height (c_rect canvas) / IZR (c_height canvas)).
Proof.
  intros d canvas e cx cy Hc He Hw Hh HW HH Hx Hy.
  unfold getPointerPos. rewrite He, Hc.
  eexists. split; [reflexivity |]. cbn [pos_x pos_y].
  assert (Hsx : 0 < IZR (c_width canvas) / rect_width (c_rect canvas))
    by (apply Rdiv_lt_0_compat; assumption).
  assert (Hsy : 0 < IZR (c_height canvas) / rect_height (c_rect canvas))
    by (apply Rdiv_lt_0_compat; assumption).
  assert (Hfx : rect_width (c_rect canvas)
                * (IZR (c_width canvas) / rect_width (c_rect canvas))
                = IZR (c_width canvas)) by (field; lra).
  assert (Hfy : rect_height (c_rect canvas)
                * (IZR (c_height canvas) / rect_height (c_rect canvas))
                = IZR (c_height canvas)) by (field; lra).
  split; [| split; [| split]].
  - split; [apply Rmult_le_pos; lra |].
    rewrite <- Hfx at 2. apply Rmult_le_compat_r; lra.
  - split; [apply Rmult_le_pos; lra |].
    rewrite <- Hfy at 2. apply Rmult_le_compat_r; lra.
  - field. lra.
  - field. lra.
Qed.

Lemma getPointerPos_maps_rect_onto_bitmap_witness :
  exists pos,
    getPointerPos (mkDom (Some (mkCanvas 400 300 (mkRect 10 20 200 150) [])) None)
                  (TouchEv [mkTouch 210 20; mkTouch 0 0]) = Some pos /\
    0 <= pos_x pos <= 400 /\ 0 <= pos_y pos <= 300.
Proof.
  destruct (getPointerPos_maps_rect_onto_bitmap
              (mkDom (Some (mkCanvas 400 300 (mkRect 10 20 200 150) [])) None)
              (mkCanvas 400 300 (mkRect 10 20 200 150) [])
              (TouchEv [mkTouch 210 20; mkTouch 0 0]) 210 20
              eq_refl eq_refl)
    as (pos & Hpos & Hx & Hy & _); cbn; try lra.
  exists pos. split; [exact Hpos |]. split; assumption.
Defined.

(** X4.  The pointer handlers raise exactly when a position is needed and
    cannot be read: [getPointerPos] fails only without a canvas or on a
    touch event with no touch; [handleStart] and [handleMove] need a
    position whenever a project is open, [handleCanvasClick] whenever a
    project is open and no relocation is pending. *)
Theorem pointer_handlers_raise_only_without_position :
  forall (now : Z) (d : Dom) (e : PointerEvent) (s : State),
    (getPointerPos d e = None <-> canvasRef d = None \/ e = TouchEv [])
    /\ (handleStart d e s = None <->
        currentProject s <> None /\ getPointerPos d e = None)
    /\ (handleMove d e s = None <->
        currentProject s <> None /\ getPointerPos d e = None)
    /\ (handleCanvasClick now d e s = None <->
        currentProject s <> None /\ relocatingMarker s = None /\
        getPointerPos d e = None).
Proof.
  intros now d e s. split; [| split; [| split]].
  - unfold getPointerPos, clientOf.
    destruct e as [cx cy | [| t ts]]; destruct (canvasRef d);
      split; intro H; try discriminate; auto;
      destruct H as [H | H]; discriminate.
  - unfold handleStart.
    destruct (currentProject s); [| split; [discriminate | intros [H _]; congruence]].
    destruct (getPointerPos d e);
      [| split; [intros _; split; [discriminate | reflexivity] | reflexivity]].
    split; [| intros [_ H]; discriminate].
    break_match; discriminate.
  - unfold handleMove.
    destruct (currentProject s); [| split; [discriminate | intros [H _]; congruence]].
    destruct (getPointerPos d e);
      [| split; [intros _; split; [discriminate | reflexivity] | reflexivity]].
    split; [| intros [_ H]; discriminate].
    break_match; discriminate.
  - unfold handleCanvasClick.
    destruct (currentProject s); [| split; [discriminate | intros [H _]; congruence]].
    destruct (relocatingMarker s);
      [split; [discriminate | intros (_ & H & _); discriminate] |].
    destruct (getPointerPos d e);
      [| split; [intros _; repeat split; discriminate | reflexivity]].
    split; [| intros (_ & _ & H); discriminate].
    break_match; discriminate.
Qed.

(** ** Panning with the pan tool *)

(** X5.  With the pan tool and no relocation pending, a pointer-down
    followed by pointer-moves shifts the pan offset by the displacement of
    the pointer on screen since the pointer-down, leaves the markers alone,
    and the pointer-up that ends the gesture keeps that offset. *)
Theorem pan_follows_pointer :
  forall (d : Dom) (e0 : PointerEvent) (s : State) (cp : Project) (pos0 : Pos)
         (e' : PointerEvent) (es : list PointerEvent) (p' : Pos) (ps : list Pos),
    currentProject s = Some cp ->
    relocatingMarker s = None ->
    tool s = ToolPan ->
    getPointerPos d e0 = Some pos0 ->
    getPointerPos d e' = Some p' ->
    Forall2 (fun e p => getPointerPos d e = Some p) es ps ->
    exists s1 s2,
      handleStart d e0 s = Some s1 /\
      handleMoves d (e' :: es) s1 = Some s2 /\
      pan s2 = mkPoint (px (pan s) + (pos_clientX (last ps p') - pos_clientX pos0))
                       (py (pan s) + (pos_clientY (last ps p') - pos_clientY pos0)) /\
      markers s2 = markers s /\
      mode s2 = Panning /\
      pan (handleEnd s2) = pan s2 /\
      mode (handleEnd s2) = Idle.
Proof.
  intros d e0 s cp pos0 e' es p' ps Hcp Hrel Htool Hpos0 He' Hes.
  unfold handleStart. rewrite Hcp, Hpos0, Hrel, Htool.
  destruct (handleMoves_panning d cp es ps Hes e' p'
              (setPanStart (mkPoint (pos_clientX pos0 - px (pan s))
                                    (pos_clientY pos0 - py (pan s)))
                           (setIsPanning true s))
              He' Hcp eq_refl)
    as (s2 & Hrun & Hms & Hrel2 & Hp & Hip).
  eexists. exists s2. split; [reflexivity |]. split; [exact Hrun |].
  split.
  { rewrite Hp. cbn. f_equal; ring. }
  split; [exact Hms |].
  split; [unfold mode; rewrite Hip; reflexivity |].
  split; [reflexivity |].
  unfold mode, handleEnd. cbn. rewrite Hrel2. cbn. rewrite Hrel. reflexivity.
Qed.

Lemma pan_follows_pointer_witness :
  exists s1 s2,
    handleStart demoDom (MouseEv 10 10) (setTool ToolPan (placedAt plant1)) = Some s1 /\
    handleMoves demoDom [MouseEv 30 5; MouseEv 40 25] s1 = Some s2 /\
    pan s2 = mkPoint (0 + (40 - 10)) (0 + (25 - 10)).
Proof.
  destruct (pan_follows_pointer
              demoDom (MouseEv 10 10) (setTool ToolPan (placedAt plant1))
              demoProject (posAt 10 10)
              (MouseEv 30 5) [MouseEv 40 25] (posAt 30 5) [posAt 40 25]
              eq_refl eq_refl eq_refl
              (getPointerPos_demo demoCanvas (Some demoImage) 10 10
                                  eq_refl eq_refl eq_refl)
              (getPointerPos_demo demoCanvas (Some demoImage) 30 5
                                  eq_refl eq_refl eq_refl)
              (Forall2_cons _ _
                 (getPointerPos_demo demoCanvas (Some demoImage) 40 25
                                     eq_refl eq_refl eq_refl)
                 (Forall2_nil _)))
    as (s1 & s2 & Hstart & Hmoves & Hpan & _).
  exists s1, s2. split; [exact Hstart |]. split; [exact Hmoves | exact Hpan].
Defined.

(** ** Redraw *)

(** X6.  The label box of a marker never covers the marker's glyph and,
    for a marker no farther than 14 pixels beyond the right edge, never
    crosses that edge: the box starts 14 pixels to the right of the
    marker, or ends 14 pixels to its left, and its right side is within
    the canvas. *)
Theorem labelBox_clear_of_glyph_and_edge :
  forall (measureText : string -> R) (W : Z) (marker : Marker),
    m_x marker - 14 <= IZR W ->
    let b := labelBox measureText W marker in
    (labelX b = m_x marker + 14 \/ labelX b + boxWidth b = m_x marker - 14) /\
    labelX b + boxWidth b <= IZR W.
Proof.
  intros measureText W marker Hin b. subst b.
  unfold labelBox, LABEL_PADDING, Rgtb. cbn.
  destruct (Rltb (IZR W) (m_x marker + 14 + (measureText (m_label marker) + 6 * 2)))
    eqn:Hflip.
  - split; [right; ring | lra].
  - apply Rltb_false_iff in Hflip. split; [left; reflexivity | lra].
Qed.

Lemma labelBox_clear_of_glyph_and_edge_witness :
  labelX (labelBox demoMeasure 200 (markerAt 7 190 100 "Tomato"))
  + boxWidth (labelBox demoMeasure 200 (markerAt 7 190 100 "Tomato")) <= 200.
Proof.
  apply (labelBox_clear_of_glyph_and_edge demoMeasure 200
           (markerAt 7 190 100 "Tomato")).
  cbn. lra.
Defined.

(** X7.  The redraw reads nothing but its declared dependencies and is
    idempotent: two states that agree on [markers], [currentProject],
    [relocatingMarker] and [imageLoaded] draw the same thing, and drawing
    again after either leaves the canvas as the first drawing made it. *)
Theorem drawEffect_depends_on_deps_and_is_idempotent :
  forall (measureText : string -> R) (s1 s2 : State) (d : Dom),
    markers s1 = markers s2 ->
    currentProject s1 = currentProject s2 ->
    relocatingMarker s1 = relocatingMarker s2 ->
    imageLoaded s1 = imageLoaded s2 ->
    drawEffect measureText s1 d = drawEffect measureText s2 d /\
    drawEffect measureText s2 (drawEffect measureText s1 d)
      = drawEffect measureText s1 d.
Proof.
  intros measureText s1 s2 d Hm Hc Hr Hi.
  assert (Heq : drawEffect measureText s1 d = drawEffect measureText s2 d).
  { unfold drawEffect. rewrite Hm, Hc, Hr, Hi. reflexivity. }
  split; [exact Heq |]. rewrite Heq.
  destruct d as [[canvas |] [img |]]; unfold drawEffect;
    cbn [canvasRef imageRef];
    destruct (currentProject s2); try reflexivity.
  destruct (img_complete img && imageLoaded s2) eqn:Hready;
    cbn [canvasRef imageRef c_rect]; rewrite Hready; reflexivity.
Qed.

Lemma drawEffect_depends_on_deps_and_is_idempotent_witness :
  drawEffect demoMeasure pendingState demoDom
  = drawEffect demoMeasure
      (setPan (mkPoint 30 15) (setTool ToolPan pendingState)) demoDom.
Proof.
  apply (drawEffect_depends_on_deps_and_is_idempotent demoMeasure
           pendingState (setPan (mkPoint 30 15) (setTool ToolPan pendingState))
           demoDom eq_refl eq_refl eq_refl eq_refl).
Defined.

(** ** Saving and deleting a marker from its dialog *)

Lemma NoDup_map_filter {A B} (f : A -> B) (g : A -> bool) (l : list A) :
  NoDup (map f l) -> NoDup (map f (filter g l)).
Proof.
  induction l as [| a l IH]; cbn; intro H; [constructor |].
  inversion H as [| x xs Hnotin Hnd]; subst.
  destruct (g a); cbn; [| apply IH; exact Hnd].
  constructor; [| apply IH; exact Hnd].
  intro Hin. apply Hnotin. apply in_map_iff in Hin.
  destruct Hin as (b & Hb & Hinb). apply filter_In in Hinb.
  apply in_map_iff. exists b. split; [exact Hb | apply Hinb].
Qed.

(** X8.  Saving the dialog never moves, recolours, reorders, adds or
    removes a marker: every marker keeps its id, position and colour.
    The markers with the selected id take the label of the dialog, the
    others are left as they were, the pending relocation is untouched and
    the dialog is closed with nothing selected. *)
Theorem saveMarkerDetails_keeps_placement :
  forall (s s' : State) (sel : Marker),
    selectedItem s = Some sel ->
    saveMarkerDetails s = Some s' ->
    map placement (markers s') = map placement (markers s) /\
    Forall (fun m' => m_id m' = m_id sel ->
                      m_label m' = noteText (editor s) /\
                      m_description m' = Some (noteDescription (editor s)))
           (markers s') /\
    filter (fun m => negb (Z.eqb (m_id m) (m_id sel))) (markers s')
      = filter (fun m => negb (Z.eqb (m_id m) (m_id sel))) (markers s) /\
    relocatingMarker s' = relocatingMarker s /\
    showNoteDialog s' = false /\ selectedItem s' = None.
Proof.
  intros s s' sel Hsel Hsave. unfold saveMarkerDetails in Hsave.
  rewrite Hsel in Hsave. inversion Hsave; subst; clear Hsave. cbn.
  split; [| split; [| split; [| auto]]].
  - rewrite map_map. apply map_ext. intro m.
    destruct (Z.eqb (m_id m) (m_id sel)); reflexivity.
  - apply Forall_forall. intros m' Hin Hid.
    apply in_map_iff in Hin. destruct Hin as (m & Hm & _).
    destruct (Z.eqb (m_id m) (m_id sel)) eqn:Heq.
    + subst m'. cbn. auto.
    + subst m'. apply Z.eqb_neq in Heq. contradiction.
  - induction (markers s) as [| m ms IH]; [reflexivity |]. cbn [map filter].
    destruct (Z.eqb (m_id m) (m_id sel)) eqn:Heq.
    + cbn [withDetails m_id]. rewrite Heq. cbn [negb]. exact IH.
    + rewrite Heq. cbn [negb]. f_equal. exact IH.
Qed.

Lemma saveMarkerDetails_keeps_placement_witness :
  exists s',
    saveMarkerDetails (openMarkerDialog plant1 (placedAt plant1)) = Some s' /\
    map placement (markers s') = [(1000%Z, 50, 50, "#10b981")].
Proof.
  eexists. split; [reflexivity |].
  apply (saveMarkerDetails_keeps_placement
           (openMarkerDialog plant1 (placedAt plant1)) _ plant1
           eq_refl eq_refl).
Defined.

(** X9.  The two dialog actions that look the selected marker up raise
    exactly when no marker is selected and the collection is not empty;
    with a marker selected, or with no marker at all, they go through. *)
Theorem dialog_actions_raise_only_without_selection :
  forall (s : State),
    (saveMarkerDetails s = None <-> selectedItem s = None /\ markers s <> [])
    /\ (deleteMarker s = None <-> selectedItem s = None /\ markers s <> []).
Proof.
  intro s. unfold saveMarkerDetails, deleteMarker.
  destruct (selectedItem s) as [sel |]; [| destruct (markers s) as [| m ms]].
  - split; (split; [discriminate | intros [H _]; discriminate]).
  - split; (split; [discriminate | intros [_ H]; exfalso; apply H; reflexivity]).
  - split; (split; [intros _; split; [reflexivity | discriminate] | reflexivity]).
Qed.

(** X10.  Deleting from the dialog removes every marker that has the
    selected marker's id and nothing else, so the collection never grows
    and distinct ids stay distinct; the dialog and its confirmation are
    closed and nothing stays selected. *)
Theorem deleteMarker_removes_selected_only :
  forall (s s' : State) (sel : Marker),
    selectedItem s = Some sel ->
    deleteMarker s = Some s' ->
    (forall m, In m (markers s') <-> In m (markers s) /\ m_id m <> m_id sel) /\
    (length (markers s') <= length (markers s))%nat /\
    (distinctIds (markers s) -> distinctIds (markers s')) /\
    showNoteDialog s' = false /\ showDeleteMarkerConfirm s' = false /\
    selectedItem s' = None.
Proof.
  intros s s' sel Hsel Hdel. unfold deleteMarker in Hdel.
  rewrite Hsel in Hdel. inversion Hdel; subst; clear Hdel. cbn.
  split; [| split; [| split; [| auto]]].
  - intro m. rewrite filter_In. rewrite negb_true_iff, Z.eqb_neq. reflexivity.
  - apply filter_length_le.
  - unfold distinctIds. apply NoDup_map_filter.
Qed.

Lemma deleteMarker_removes_selected_only_witness :
  exists s',
    deleteMarker (openMarkerDialog markerA
                    (setMarkers [markerB; markerA] (placedAt plant1))) = Some s' /\
    ~ In markerA (markers s') /\ In markerB (markers s').
Proof.
  eexists. split; [reflexivity |].
  destruct (deleteMarker_removes_selected_only
              (openMarkerDialog markerA
                 (setMarkers [markerB; markerA] (placedAt plant1))) _ markerA
              eq_refl eq_refl) as [Hin _].
  split.
  - intro H. apply Hin in H. destruct H as [_ Hne]. apply Hne. reflexivity.
  - apply Hin. split; [left; reflexivity | cbn; discriminate].
Defined.

(** ** Auto-save *)

Lemma find_rewritten (k : Z) (q : Project) (ps : list Project) :
  p_id q = k ->
  find (fun p => Z.eqb (p_id p) k)
       (map (fun p => if Z.eqb (p_id p) k then q else p) ps)
  = if existsb (fun p => Z.eqb (p_id p) k) ps then Some q else None.
Proof.
  intro Hq. induction ps as [| p ps IH]; [reflexivity |]. cbn [map find existsb].
  destruct (Z.eqb (p_id p) k) eqn:Hp.
  - rewrite Hq, Z.eqb_refl. reflexivity.
  - rewrite Hp. cbn [orb]. exact IH.
Qed.

(** X11.  Saving and loading round-trip.  When the current project is in
    the project list, [saveData] leaves in the list a copy of it that
    keeps its id, name and image and from which [loadProject] restores
    exactly the markers and the journal of the moment of the save; the
    list keeps its length and ids, every entry with the current id becomes
    that copy, and the entries of other projects are not touched. *)
Theorem saveData_loadProject_round_trip :
  forall (s s0 : State) (cp : Project),
    currentProject s = Some cp ->
    existsb (fun p => Z.eqb (p_id p) (p_id cp)) (projects s) = true ->
    exists p,
      savedCopy (saveData s) = Some p /\
      p_id p = p_id cp /\ p_name p = p_name cp /\ p_image p = p_image cp /\
      markers (loadProject p s0) = markers s /\
      globalJournalEntries (loadProject p s0) = globalJournalEntries s /\
      map p_id (projects (saveData s)) = map p_id (projects s) /\
      Forall (fun q => p_id q = p_id cp -> q = p) (projects (saveData s)) /\
      filter (fun q => negb (Z.eqb (p_id q) (p_id cp))) (projects (saveData s))
        = filter (fun q => negb (Z.eqb (p_id q) (p_id cp))) (projects s).
Proof.
  intros s s0 cp Hcp Hin.
  exists (snapshot cp s).
  unfold savedCopy, saveData. rewrite Hcp. cbn [setProjects currentProject projects].
  rewrite Hcp. rewrite find_rewritten by reflexivity. rewrite Hin.
  split; [reflexivity |].
  repeat (split; [reflexivity |]).
  split; [| split].
  - rewrite map_map. apply map_ext. intro p.
    destruct (Z.eqb (p_id p) (p_id cp)) eqn:Hp; [| reflexivity].
    apply Z.eqb_eq in Hp. symmetry. exact Hp.
  - apply Forall_forall. intros q Hq Hid.
    apply in_map_iff in Hq. destruct Hq as (p & Hp & _).
    destruct (Z.eqb (p_id p) (p_id cp)) eqn:Heq; [congruence |].
    subst q. apply Z.eqb_neq in Heq. contradiction.
  - clear Hin. induction (projects s) as [| p ps IH]; [reflexivity |].
    cbn [map filter].
    destruct (Z.eqb (p_id p) (p_id cp)) eqn:Hp.
    + cbn [snapshot p_id]. rewrite Z.eqb_refl. cbn [negb]. exact IH.
    + rewrite Hp. cbn [negb]. f_equal. exact IH.
Qed.

Lemma saveData_loadProject_round_trip_witness :
  exists p,
    savedCopy (saveData (setMarkers [markerA; markerB] (placedAt plant1))) = Some p /\
    markers (loadProject p initialState) = [markerA; markerB].
Proof.
  destruct (saveData_loadProject_round_trip
              (setMarkers [markerA; markerB] (placedAt plant1)) initialState
              demoProject eq_refl eq_refl)
    as (p & Hsaved & _ & _ & _ & Hms & _).
  exists p. split; [exact Hsaved | exact Hms].
Defined.

(** The saved copy after [saveData] holds the markers and the journal. *)
Lemma saveData_synced (s : State) (cp : Project) :
  currentProject s = Some cp ->
  Synced (clearDeps (saveData s)).
Proof.
  intro Hcp. unfold Synced, savedAgrees, savedCopy, saveData. rewrite Hcp.
  cbn [clearDeps setProjects saveDepsChanged currentProject projects markers
       globalJournalEntries].
  split; [reflexivity |]. rewrite Hcp.
  rewrite find_rewritten by reflexivity.
  destruct (existsb _ _); [| exact I]. cbn. split; reflexivity.
Qed.

Lemma commit_synced (measureText : string -> R) (s : State) (d : Dom) :
  saveDepsChanged s = true \/ (saveDepsChanged s = false /\ savedAgrees s) ->
  Synced (ui (commit measureText (mkWorld s d))).
Proof.
  intros [Hflag | [Hflag Hcore]]; unfold commit; cbn [ui];
    unfold autoSaveEffect; rewrite Hflag.
  - destruct (currentProject s) as [cp |] eqn:Hcp.
    + apply (saveData_synced s cp Hcp).
    + unfold Synced, savedAgrees, savedCopy. cbn. rewrite Hcp.
      split; [reflexivity | exact I].
  - unfold Synced. split; [reflexivity |]. exact Hcore.
Qed.

Lemma step_keeps_synced (measureText : string -> R) (ev : Event) (w w' : World) :
  adoptsServerList ev = false ->
  step measureText ev w = Some w' ->
  Synced (ui w) ->
  Synced (ui w').
Proof.
  intros Hev Hstep [Hflag Hcore]. destruct w as [s d]. cbn [ui] in Hflag, Hcore.
  unfold step in Hstep.
  destruct (handle ev (mkWorld s d)) as [[s1 d1] |] eqn:Hh; [| discriminate].
  inversion Hstep; subst; clear Hstep.
  destruct ev; cbn in Hh; try discriminate Hev;
    unfold handleStart, handleMove, handleCanvasClick, finishRelocation,
      saveMarkerDetails, deleteMarker, startRelocation, dataLoaded,
      imageUploaded, deleteCurrentProject, saveResponse, onLoad in Hh;
    break_match; try discriminate;
    repeat match goal with
           | H : Some _ = Some _ |- _ => inversion H; clear H; subst
           end;
    apply commit_synced;
    first [ left; reflexivity
          | right; split; [exact Hflag | exact Hcore]
          | idtac ].
  - right. split; [exact Hflag |].
    unfold savedAgrees, savedCopy. cbn. destruct (currentProject s); exact I.
  - left. cbn.
    match goal with H : currentProject s = Some _ |- _ => rewrite H end.
    reflexivity.
Qed.

(** X12.  The project list follows the component.  Apart from the moments
    when a list sent back by the service is adopted, after every event
    and its render the saved copy of the current project holds exactly the
    markers and the journal of the component, whatever the event did. *)
Theorem run_keeps_synced :
  forall (measureText : string -> R) (evs : list Event) (w w' : World),
    Synced (ui w) ->
    existsb adoptsServerList evs = false ->
    run measureText evs w = Some w' ->
    Synced (ui w').
Proof.
  intros measureText evs. induction evs as [| ev evs IH];
    intros w w' Hsync Hevs Hrun.
  - cbn in Hrun. inversion Hrun. subst. exact Hsync.
  - cbn [existsb] in Hevs. apply orb_false_iff in Hevs. destruct Hevs as [Hev Hevs].
    cbn [run] in Hrun.
    destruct (step measureText ev w) as [w1 |] eqn:Hstep; [| discriminate].
    apply (IH w1 w'); [| exact Hevs | exact Hrun].
    apply (step_keeps_synced measureText ev w w1 Hev Hstep Hsync).
Qed.

Lemma initialState_synced : Synced initialState.
Proof. split; [reflexivity | exact I]. Qed.

Lemma run_keeps_synced_witness :
  exists w',
    run demoMeasure dragAndCancel initialWorld = Some w' /\
    Synced (ui w').
Proof.
  eexists. split; [apply run_dragAndCancel |].
  apply (run_keeps_synced demoMeasure dragAndCancel initialWorld _
           initialState_synced eq_refl run_dragAndCancel).
Defined.

(** ** Marker ids along a session *)

Lemma map_ids_pointwise (f : Marker -> Marker) (ms : list Marker) :
  (forall m, In m ms -> m_id (f m) = m_id m) ->
  map m_id (map f ms) = map m_id ms.
Proof.
  intro Hf. rewrite map_map. apply map_ext_in. exact Hf.
Qed.

Lemma replace_by_id_ids (k : Z) (o : Marker) (ms : list Marker) :
  m_id o = k ->
  map m_id (map (fun m => if Z.eqb (m_id m) k then o else m) ms) = map m_id ms.
Proof.
  intro Ho. apply map_ids_pointwise. intros m _.
  destruct (Z.eqb (m_id m) k) eqn:Hm; [| reflexivity].
  apply Z.eqb_eq in Hm. congruence.
Qed.

Lemma commit_keeps_distinct (measureText : string -> R) (s : State) (d : Dom) :
  AllDistinct s -> AllDistinct (ui (commit measureText (mkWorld s d))).
Proof.
  intros [Hms Hps]. unfold commit. cbn [ui].
  unfold autoSaveEffect, saveData.
  destruct (saveDepsChanged s); [| split; assumption].
  destruct (currentProject s) as [cp |]; [| split; assumption].
  split; [exact Hms |]. cbn [clearDeps setProjects projects].
  apply Forall_forall. intros p Hp. apply in_map_iff in Hp.
  destruct Hp as (p0 & Hp0 & Hin0).
  destruct (Z.eqb (p_id p0) (p_id cp)).
  - subst p. exact Hms.
  - subst p. rewrite Forall_forall in Hps. apply Hps. exact Hin0.
Qed.

Lemma handle_keeps_distinct (ev : Event) (w w' : World) :
  handle ev w = Some w' ->
  wellFormed ev (ui w) ->
  AllDistinct (ui w) ->
  AllDistinct (ui w').
Proof.
  intros Hh Hwf [Hms Hps]. destruct w as [s d]. cbn [ui] in Hwf, Hms, Hps.
  unfold distinctIds in Hms.
  destruct ev; cbn in Hh; cbn [wellFormed] in Hwf;
    unfold handleStart, handleMove, handleCanvasClick, finishRelocation,
      saveMarkerDetails, deleteMarker, startRelocation, dataLoaded,
      imageUploaded, deleteCurrentProject, saveResponse, onLoad, findOriginal in Hh;
    break_match; try discriminate;
    repeat match goal with
           | H : Some _ = Some _ |- _ => inversion H; clear H; subst
           end;
    (split; [unfold distinctIds |]); cbn;
    try assumption.
  - unfold replaceById. rewrite replace_by_id_ids by reflexivity. exact Hms.
  - rewrite map_app. cbn. apply NoDup_snoc; assumption.
  - match goal with
    | H : find _ _ = Some ?o |- context [if _ then ?o else _] =>
        apply find_some in H; destruct H as [_ H]; apply Z.eqb_eq in H;
        rewrite replace_by_id_ids by exact H
    end.
    exact Hms.
  - match goal with H : projects s = [] |- _ => rewrite H end. constructor.
  - rewrite map_ids_pointwise; [exact Hms |].
    intros m0 _. destruct (Z.eqb (m_id m0) (m_id m)); reflexivity.
  - apply NoDup_map_filter. exact Hms.
  - inversion Hwf; subst. assumption.
  - constructor.
  - apply Forall_app. split; [exact Hps |].
    constructor; [constructor | constructor].
  - apply Forall_forall. intros q Hq. apply filter_In in Hq.
    rewrite Forall_forall in Hps. apply Hps. apply Hq.
  - assert (Hin : In p0 (projects s)).
    { assert (Hr : In p0 (rev (filter (fun q => negb (Z.eqb (p_id q) (p_id p)))
                                      (projects s)))).
      { match goal with H : rev _ = _ |- _ => rewrite H end. left. reflexivity. }
      apply in_rev in Hr. apply filter_In in Hr. apply Hr. }
    rewrite Forall_forall in Hps. apply (Hps p0 Hin).
  - apply Forall_forall. intros q Hq. apply filter_In in Hq.
    rewrite Forall_forall in Hps. apply Hps. apply Hq.
Qed.

Lemma step_keeps_distinct (measureText : string -> R) (ev : Event) (w w' : World) :
  step measureText ev w = Some w' ->
  wellFormed ev (ui w) ->
  AllDistinct (ui w) ->
  AllDistinct (ui w').
Proof.
  intros Hstep Hwf Hd. unfold step in Hstep.
  destruct (handle ev w) as [[s1 d1] |] eqn:Hh; [| discriminate].
  inversion Hstep; subst; clear Hstep.
  apply commit_keeps_distinct.
  apply (handle_keeps_distinct ev w (mkWorld s1 d1) Hh Hwf Hd).
Qed.

(** X13.  Marker ids stay pairwise distinct, in the collection and within
    every project of the list, through every run of events in which each
    click comes with a clock reading that is not yet an id of the
    collection and each list received from the service has distinct ids:
    moving, editing, deleting, cancelling, saving and switching projects
    never duplicate an id. *)
Theorem run_keeps_ids_distinct :
  forall (measureText : string -> R) (evs : list Event) (w w' : World),
    AllDistinct (ui w) ->
    wellFormedRun measureText evs w ->
    run measureText evs w = Some w' ->
    AllDistinct (ui w').
Proof.
  intros measureText evs. induction evs as [| ev evs IH];
    intros w w' Hd Hwf Hrun.
  - cbn in Hrun. inversion Hrun. subst. exact Hd.
  - cbn [run] in Hrun. cbn [wellFormedRun] in Hwf. destruct Hwf as [Hev Hrest].
    destruct (step measureText ev w) as [w1 |] eqn:Hstep; [| discriminate].
    apply (IH w1 w'); [| exact Hrest | exact Hrun].
    apply (step_keeps_distinct measureText ev w w1 Hstep Hev Hd).
Qed.

Lemma initialState_distinct : AllDistinct initialState.
Proof. split; constructor. Qed.

Lemma wellFormedRun_dragAndCancel :
  wellFormedRun demoMeasure dragAndCancel initialWorld.
Proof.
  vm_compute. repeat split. intros H. exact H.
Qed.

Lemma run_keeps_ids_distinct_witness :
  exists w',
    run demoMeasure dragAndCancel initialWorld = Some w' /\
    AllDistinct (ui w').
Proof.
  eexists. split; [apply run_dragAndCancel |].
  apply (run_keeps_ids_distinct demoMeasure dragAndCancel initialWorld _
           initialState_distinct wellFormedRun_dragAndCancel run_dragAndCancel).
Defined.

Lemma distinct_ids_same_marker (ms : list Marker) (a b : Marker) :
  distinctIds ms -> In a ms -> In b ms -> m_id a = m_id b -> a = b.
Proof.
  unfold distinctIds. induction ms as [| m ms IH]; intros Hnd Ha Hb Hid;
    [destruct Ha |].
  cbn in Hnd. inversion Hnd as [| x xs Hnotin Hnd']; subst.
  destruct Ha as [Ha | Ha]; destruct Hb as [Hb | Hb].
  - congruence.
  - subst a. exfalso. apply Hnotin. rewrite Hid. apply in_map. exact Hb.
  - subst b. exfalso. apply Hnotin. rewrite <- Hid. apply in_map. exact Ha.
  - apply IH; assumption.
Qed.

(** X14.  Once the project list follows the component and ids are
    distinct, which holds after every render of a session, cancelling a
    relocation never changes a marker: with a project open it does not
    raise, it clears the pending relocation, and the collection is the
    one it found. *)
Theorem cancel_changes_no_marker :
  forall (s : State) (cp : Project),
    Synced s ->
    distinctIds (markers s) ->
    currentProject s = Some cp ->
    exists s2,
      finishRelocation false s = Some s2 /\
      markers s2 = markers s /\
      relocatingMarker s2 = None.
Proof.
  intros s cp [_ Hsaved] Hnd Hcp.
  unfold savedAgrees, savedCopy in Hsaved. rewrite Hcp in Hsaved.
  unfold finishRelocation, findOriginal. rewrite Hcp.
  destruct (relocatingMarker s) as [rm |];
    [| eexists; split; [reflexivity |]; split; reflexivity].
  destruct (find (fun p => Z.eqb (p_id p) (p_id cp)) (projects s)) as [p |];
    [| eexists; split; [reflexivity |]; split; reflexivity].
  destruct Hsaved as [Hms _]. rewrite Hms.
  destruct (find (fun m => Z.eqb (m_id m) (m_id rm)) (markers s))
    as [original |] eqn:Horig;
    [| eexists; split; [reflexivity |]; split; reflexivity].
  eexists. split; [reflexivity |]. cbn. split; [| reflexivity].
  apply find_some in Horig. destruct Horig as [Hin Hid]. apply Z.eqb_eq in Hid.
  rewrite <- (map_id (markers s)) at 2. apply map_ext_in.
  intros m Hm. destruct (Z.eqb (m_id m) (m_id rm)) eqn:Heq; [| reflexivity].
  apply Z.eqb_eq in Heq.
  apply (distinct_ids_same_marker (markers s)); [assumption .. | congruence].
Qed.

Lemma cancel_changes_no_marker_witness :
  exists s2,
    finishRelocation false (pendingAt (markerAt 1000 55 55 "Plant 1")) = Some s2 /\
    markers s2 = [markerAt 1000 55 55 "Plant 1"].
Proof.
  destruct (cancel_changes_no_marker
              (pendingAt (markerAt 1000 55 55 "Plant 1")) demoProject)
    as (s2 & Hfin & Hms & _).
  - split; [reflexivity |]. split; reflexivity.
  - cbn. constructor; [intros [] | constructor].
  - reflexivity.
  - exists s2. split; [exact Hfin | exact Hms].
Defined.

(** ** Dialogs and selection *)

Lemma commit_keeps_dialog (measureText : string -> R) (w : World) :
  DialogHasSelection (ui w) ->
  DialogHasSelection (ui (commit measureText w)).
Proof.
  unfold DialogHasSelection, commit. cbn [ui].
  unfold autoSaveEffect, saveData. break_match; cbn; auto.
Qed.

Lemma commit_selectedItem (measureText : string -> R) (w : World) :
  selectedItem (ui (commit measureText w)) = selectedItem (ui w).
Proof.
  unfold commit. cbn [ui clearDeps selectedItem].
  unfold autoSaveEffect, saveData. break_match; reflexivity.
Qed.

Lemma commit_showDeleteMarkerConfirm (measureText : string -> R) (w : World) :
  showDeleteMarkerConfirm (ui (commit measureText w))
  = showDeleteMarkerConfirm (ui w).
Proof.
  unfold commit. cbn [ui clearDeps showDeleteMarkerConfirm].
  unfold autoSaveEffect, saveData. break_match; reflexivity.
Qed.

Lemma handle_keeps_dialog (ev : Event) (w w' : World) :
  DialogHasSelection (ui w) ->
  handle ev w = Some w' ->
  DialogHasSelection (ui w').
Proof.
  intros Hinv Hh. destruct w as [s d]. cbn [ui] in Hinv.
  destruct ev; cbn in Hh;
    unfold handleStart, handleMove, handleCanvasClick, finishRelocation,
      saveMarkerDetails, deleteMarker, startRelocation, dataLoaded,
      imageUploaded, deleteCurrentProject, saveResponse, onLoad in Hh;
    break_match; try discriminate;
    repeat match goal with
           | H : Some _ = Some _ |- _ => inversion H; clear H; subst
           end;
    try exact Hinv;
    unfold DialogHasSelection in *; cbn in *;
    first [ intros _; discriminate
          | intro H; discriminate H
          | exact Hinv ].
Qed.

(** X15.  Through any run of events, a marker is selected whenever the
    marker dialog is shown: every handler that clears the selection also
    closes the dialog, and the dialog opens only on a marker.  So while
    the dialog is shown its "Save" and "Relocate" act on that marker and a
    confirmed "Delete" does not raise.  The delete confirmation is not
    tied to the selection in the same way: "Relocate" pressed while it is
    up closes the dialog and clears the selection but leaves the
    confirmation, whose "Delete" then raises if the collection holds a
    marker. *)
Theorem shown_dialog_has_selection :
  forall (measureText : string -> R) (evs : list Event) (w w' : World),
    DialogHasSelection (ui w) ->
    run measureText evs w = Some w' ->
    DialogHasSelection (ui w') /\
    (showNoteDialog (ui w') = true ->
     exists sel,
       selectedItem (ui w') = Some sel /\
       step measureText SaveMarkerDetails w' <> None /\
       step measureText DeleteMarker w' <> None /\
       relocatingMarker (startRelocation (ui w')) = Some sel) /\
    (forall sel,
       selectedItem (ui w') = Some sel ->
       showDeleteMarkerConfirm (ui w') = true ->
       markers (ui w') <> [] ->
       exists w1,
         step measureText StartRelocation w' = Some w1 /\
         showNoteDialog (ui w1) = false /\
         showDeleteMarkerConfirm (ui w1) = true /\
         step measureText DeleteMarker w1 = None).
Proof.
  intros measureText evs.
  assert (Hinv : forall (w w' : World),
             DialogHasSelection (ui w) ->
             run measureText evs w = Some w' ->
             DialogHasSelection (ui w')).
  { induction evs as [| ev evs IH]; intros w w' Hd Hrun.
    - cbn in Hrun. inversion Hrun. subst. exact Hd.
    - cbn [run] in Hrun.
      destruct (step measureText ev w) as [w1 |] eqn:Hstep; [| discriminate].
      apply (IH w1 w'); [| exact Hrun].
      unfold step in Hstep.
      destruct (handle ev w) as [w0 |] eqn:Hh; [| discriminate].
      inversion Hstep; subst. apply commit_keeps_dialog.
      apply (handle_keeps_dialog ev w w0 Hd Hh). }
  intros w w' Hd Hrun. pose proof (Hinv w w' Hd Hrun) as Hd'.
  split; [exact Hd' |]. split.
  - intro Hshown. unfold DialogHasSelection in Hd'.
    destruct (selectedItem (ui w')) as [sel |] eqn:Hsel;
      [| exfalso; apply (Hd' Hshown); reflexivity].
    exists sel. split; [reflexivity |].
    unfold step. cbn [handle].
    unfold saveMarkerDetails, deleteMarker, startRelocation. rewrite Hsel.
    repeat split; discriminate.
  - intros sel Hsel Hconf Hms.
    unfold step at 1. cbn [handle]. unfold startRelocation. rewrite Hsel.
    eexists. split; [reflexivity |].
    split; [| split].
    + unfold commit. cbn [ui clearDeps showNoteDialog].
      unfold autoSaveEffect, saveData. break_match; reflexivity.
    + rewrite commit_showDeleteMarkerConfirm. exact Hconf.
    + unfold step. cbn [handle]. unfold deleteMarker.
      rewrite commit_selectedItem, commit_markers. cbn.
      destruct (markers (ui w')); [contradiction | reflexivity].
Qed.

Lemma initialState_dialog : DialogHasSelection initialState.
Proof. intro H; discriminate H. Qed.

Lemma shown_dialog_has_selection_witness :
  exists w' w1,
    run demoMeasure [ToggleSidebar; SidebarSelect 0; AskDeleteMarker]
        (shown (placedAt plant1))
      = Some w' /\
    showNoteDialog (ui w') = true /\
    selectedItem (ui w') = Some plant1 /\
    step demoMeasure SaveMarkerDetails w' <> None /\
    step demoMeasure DeleteMarker w' <> None /\
    step demoMeasure StartRelocation w' = Some w1 /\
    step demoMeasure DeleteMarker w1 = None.
Proof.
  destruct (run demoMeasure [ToggleSidebar; SidebarSelect 0; AskDeleteMarker]
                (shown (placedAt plant1))) as [w' |] eqn:Hrun;
    [| vm_compute in Hrun; discriminate Hrun].
  assert (Hstate : showNoteDialog (ui w') = true /\
                   selectedItem (ui w') = Some plant1 /\
                   showDeleteMarkerConfirm (ui w') = true /\
                   markers (ui w') = [plant1]).
  { vm_compute in Hrun. inversion Hrun. repeat split; reflexivity. }
  destruct Hstate as (Hshown & Hsel & Hconf & Hms).
  assert (Hd : DialogHasSelection (ui (shown (placedAt plant1))))
    by (intro H; discriminate H).
  destruct (shown_dialog_has_selection demoMeasure
              [ToggleSidebar; SidebarSelect 0; AskDeleteMarker]
              (shown (placedAt plant1)) w' Hd Hrun)
    as (_ & Hbuttons & Hunder).
  destruct (Hbuttons Hshown) as (sel & _ & Hsave & Hdel & _).
  destruct (Hunder plant1 Hsel Hconf ltac:(rewrite Hms; discriminate))
    as (w1 & Hrel & _ & _ & Hraise).
  exists w', w1. split; [reflexivity |].
  split; [exact Hshown |]. split; [exact Hsel |].
  split; [exact Hsave |]. split; [exact Hdel |].
  split; [exact Hrel | exact Hraise].
Defined.

(** ** Deleting the current project *)

(** X16.  [deleteCurrentProject] removes from the list every project that
    has the current project's id and no other.  When a project remains,
    the last one of the list becomes current, with its own markers, no
    pending relocation and the image to be loaded again; when none
    remains, there is no current project, and the markers and the pending
    relocation of the deleted project are left in the component. *)
Theorem deleteCurrentProject_switches_to_last :
  forall (s : State) (cp : Project),
    currentProject s = Some cp ->
    let s' := deleteCurrentProject s in
    (forall p, In p (projects s') <-> In p (projects s) /\ p_id p <> p_id cp) /\
    match currentProject s' with
    | Some next =>
        (exists front, projects s' = front ++ [next]) /\
        p_id next <> p_id cp /\
        markers s' = storedMarkers next /\
        relocatingMarker s' = None /\
        imageLoaded s' = false /\
        scale s' = 1 /\ pan s' = mkPoint 0 0
    | None =>
        projects s' = [] /\
        markers s' = markers s /\
        relocatingMarker s' = relocatingMarker s
    end.
Proof.
  intros s cp Hcp s'. subst s'. unfold deleteCurrentProject. rewrite Hcp.
  set (kept := filter (fun p => negb (Z.eqb (p_id p) (p_id cp))) (projects s)).
  assert (Hkept : forall p, In p kept <-> In p (projects s) /\ p_id p <> p_id cp).
  { intro p. unfold kept. rewrite filter_In, negb_true_iff, Z.eqb_neq.
    reflexivity. }
  destruct (rev kept) as [| lastProject front] eqn:Hrev.
  - assert (Hnil : kept = []).
    { rewrite <- (rev_involutive kept), Hrev. reflexivity. }
    cbn. rewrite Hnil in *. split; [exact Hkept |]. auto.
  - assert (Hsplit : kept = rev front ++ [lastProject]).
    { rewrite <- (rev_involutive kept), Hrev. reflexivity. }
    cbn. split; [exact Hkept |].
    split; [exists (rev front); exact Hsplit |].
    split; [| repeat split; reflexivity].
    apply (Hkept lastProject). rewrite Hsplit. apply in_or_app. right.
    left. reflexivity.
Qed.

Lemma deleteCurrentProject_switches_to_last_witness :
  In projectB
     (projects (deleteCurrentProject
                  (setProjects [projectB; demoProject] (placedAt plant1)))).
Proof.
  pose proof (deleteCurrentProject_switches_to_last
                (setProjects [projectB; demoProject] (placedAt plant1))
                demoProject eq_refl) as H.
  cbv zeta in H. destruct H as [H _]. apply H.
  split.
  - left. reflexivity.
  - cbn. discriminate.
Defined.

(** ** Placing a marker *)

Lemma hitMarker_none_far (ms : list Marker) (pos : Pos) :
  hitMarker ms pos = None -> Forall (fun m => 30 <= distance m pos) ms.
Proof.
  unfold hitMarker. induction ms as [| m ms IH]; cbn [find]; intro H;
    [constructor |].
  destruct (hitTest pos m) eqn:Hm; [discriminate |].
  constructor; [| apply IH; exact H].
  apply Rnot_lt_le. intro Hlt. apply hitTest_distance in Hlt. congruence.
Qed.

(** X17.  A click never changes or removes a marker and never touches
    the pending relocation.  It adds at most one marker, at the end of
    the collection, and only with the marker tool, no relocation pending
    and every existing marker at distance 30 or more from the click; the
    new marker lies at the click position, carries the clock reading as
    id, and is the one the dialog opens on. *)
Theorem click_adds_at_most_one_marker :
  forall (now : Z) (d : Dom) (e : PointerEvent) (s s' : State),
    handleCanvasClick now d e s = Some s' ->
    relocatingMarker s' = relocatingMarker s /\
    (markers s' = markers s \/
     exists pos nm,
       getPointerPos d e = Some pos /\
       tool s = ToolMarker /\ relocatingMarker s = None /\
       Forall (fun m => 30 <= distance m pos) (markers s) /\
       markers s' = markers s ++ [nm] /\
       m_id nm = now /\ m_x nm = pos_x pos /\ m_y nm = pos_y pos /\
       selectedItem s' = Some nm /\ showNoteDialog s' = true).
Proof.
  intros now d e s s' Hclick. unfold handleCanvasClick in Hclick.
  destruct (currentProject s);
    [| inversion Hclick; subst; split; [reflexivity | left; reflexivity]].
  destruct (relocatingMarker s) as [rm |] eqn:Hrel;
    [inversion Hclick; subst; split; [exact Hrel | left; reflexivity] |].
  destruct (getPointerPos d e) as [pos |]; [| discriminate].
  destruct (hitMarker (markers s) pos) as [hit |] eqn:Hhit;
    destruct (tool s) eqn:Htool; inversion Hclick; subst; cbn;
    (split; [first [exact Hrel | symmetry; exact Hrel | reflexivity] |]);
    try (left; reflexivity).
  right. exists pos, (newMarker now pos (markers s)).
  split; [reflexivity |]. split; [reflexivity |]. split; [reflexivity |].
  split; [apply hitMarker_none_far; exact Hhit |].
  repeat split; reflexivity.
Qed.

Lemma click_adds_at_most_one_marker_witness :
  relocatingMarker
    (openMarkerDialog (newMarker 2000 (posAt 150 150) [plant1])
       (setMarkers [plant1; newMarker 2000 (posAt 150 150) [plant1]]
                   (placedAt plant1)))
  = relocatingMarker (placedAt plant1).
Proof.
  apply (click_adds_at_most_one_marker
           2000 (dom (shown (placedAt plant1))) (MouseEv 150 150)
           (placedAt plant1) _
           (handleCanvasClick_creates 2000 _ (MouseEv 150 150)
              (placedAt plant1) demoProject (posAt 150 150)
              eq_refl eq_refl eq_refl (getPointerPos_shown _ 150 150)
              hitMarker_plant1_far)).
Defined.

(** ** The persistence service *)

Section PersistenceProperties.

Variable storedAs : string -> option string.

Lemma processImage_idempotent (imgData : string) :
  processImage storedAs (processImage storedAs imgData)
  = processImage storedAs imgData.
Proof.
  unfold processImage.
  destruct (String.prefix "data:image" imgData) eqn:Hinline.
  - destruct (storedAs imgData) as [filename |] eqn:Hstored.
    + reflexivity.
    + rewrite Hinline, Hstored. reflexivity.
  - rewrite Hinline. reflexivity.
Qed.

Lemma map_idempotent {A} (f : A -> A) (l : list A) :
  (forall a, f (f a) = f a) -> map f (map f l) = map f l.
Proof. intro Hf. rewrite map_map. apply map_ext. exact Hf. Qed.

Lemma option_map_idempotent {A} (f : A -> A) (o : option A) :
  (forall a, f (f a) = f a) -> option_map f (option_map f o) = option_map f o.
Proof. intro Hf. destruct o; cbn; [rewrite Hf |]; reflexivity. Qed.

Lemma cleanEntry_idempotent (entry : JournalEntry) :
  cleanEntry storedAs (cleanEntry storedAs entry) = cleanEntry storedAs entry.
Proof.
  unfold cleanEntry. cbn. f_equal.
  apply map_idempotent. exact processImage_idempotent.
Qed.

Lemma cleanMarker_idempotent (marker : Marker) :
  cleanMarker storedAs (cleanMarker storedAs marker) = cleanMarker storedAs marker.
Proof.
  unfold cleanMarker. cbn. f_equal.
  - apply option_map_idempotent. intro l. apply map_idempotent.
    exact processImage_idempotent.
  - apply option_map_idempotent. intro l. apply map_idempotent.
    exact cleanEntry_idempotent.
Qed.

Lemma cleanProject_idempotent (project : Project) :
  cleanProject storedAs (cleanProject storedAs project)
  = cleanProject storedAs project.
Proof.
  unfold cleanProject. cbn. f_equal.
  - apply processImage_idempotent.
  - apply option_map_idempotent. intro l. apply map_idempotent.
    exact cleanMarker_idempotent.
  - apply option_map_idempotent. intro l. apply map_idempotent.
    exact cleanEntry_idempotent.
Qed.

(** X18.  Cleaning a project list on the service is idempotent: an image
    that has been stored as a file is never stored again, so cleaning a
    cleaned list returns it unchanged.  Cleaning touches image references
    only: the list keeps its projects and their ids and names, and every
    project keeps its markers with their ids, positions, colours and
    labels. *)
Theorem cleanProjectData_idempotent_keeps_markers :
  forall (ps : list Project),
    cleanProjectData storedAs (cleanProjectData storedAs ps)
      = cleanProjectData storedAs ps /\
    map p_id (cleanProjectData storedAs ps) = map p_id ps /\
    map p_name (cleanProjectData storedAs ps) = map p_name ps /\
    map (fun p => option_map (map placement) (p_markers p))
        (cleanProjectData storedAs ps)
      = map (fun p => option_map (map placement) (p_markers p)) ps /\
    map (fun p => option_map (map m_label) (p_markers p))
        (cleanProjectData storedAs ps)
      = map (fun p => option_map (map m_label) (p_markers p)) ps.
Proof.
  intro ps. unfold cleanProjectData.
  split; [apply map_idempotent; exact cleanProject_idempotent |].
  split; [rewrite map_map; reflexivity |].
  split; [rewrite map_map; reflexivity |].
  split; rewrite map_map; apply map_ext; intro p; cbn;
    destruct (p_markers p) as [ms |]; cbn; try reflexivity;
    rewrite map_map; reflexivity.
Qed.

End PersistenceProperties.

(** ** Uploading an image *)

Lemma map_rewrite_fresh (k : Z) (q : Project) (ps : list Project) :
  Forall (fun p => p_id p <> k) ps ->
  map (fun p => if Z.eqb (p_id p) k then q else p) ps = ps.
Proof.
  induction 1 as [| p ps Hp _ IH]; [reflexivity |]. cbn [map].
  apply Z.eqb_neq in Hp. rewrite Hp, IH. reflexivity.
Qed.



(** ** Confirming a relocation *)

(** X20.  Confirming after a move keeps the move: a pointer-move with a
    relocation pending followed by the confirm button leaves the marker
    at the pointer's image position, clears the pending relocation, does
    not raise, and the saved copy of the project holds the moved marker. *)
Theorem confirm_keeps_dragged_position :
  forall (measureText : string -> R) (w : World) (e : PointerEvent)
         (cp : Project) (rm : Marker) (pos : Pos),
    currentProject (ui w) = Some cp ->
    relocatingMarker (ui w) = Some rm ->
    isPanning (ui w) = false ->
    getPointerPos (dom w) e = Some pos ->
    exists w1 w2,
      step measureText (PointerMove e) w = Some w1 /\
      step measureText (FinishRelocation true) w1 = Some w2 /\
      markers (ui w2) = replaceById (movedTo rm pos) (markers (ui w)) /\
      relocatingMarker (ui w2) = None /\
      Synced (ui w2).
Proof.
  intros measureText w e cp rm pos Hcp Hrel Hpan Hpos.
  unfold step at 1. cbn [handle].
  rewrite (handleMove_relocating (dom w) e (ui w) cp rm pos) by assumption.
  set (s1 := setMarkers (replaceById (movedTo rm pos) (markers (ui w)))
               (setRelocatingMarker (Some (movedTo rm pos)) (ui w))).
  assert (Hsync : Synced (ui (commit measureText (mkWorld s1 (dom w)))))
    by (apply commit_synced; left; reflexivity).
  eexists. eexists. split; [reflexivity |].
  unfold step. cbn [handle finishRelocation]. split; [reflexivity |].
  rewrite commit_markers, commit_relocatingMarker. cbn [ui].
  split; [cbn [setRelocatingMarker markers]; rewrite commit_markers; reflexivity |].
  split; [reflexivity |].
  apply commit_synced. right. destruct Hsync as [Hflag Hagree].
  split; [exact Hflag | exact Hagree].
Qed.

Lemma confirm_keeps_dragged_position_witness :
  exists w1 w2,
    step demoMeasure (PointerMove (MouseEv 55 55)) (shown pendingState) = Some w1 /\
    step demoMeasure (FinishRelocation true) w1 = Some w2 /\
    markers (ui w2) = [markerAt 1000 55 55 "Plant 1"].
Proof.
  destruct (confirm_keeps_dragged_position
              demoMeasure (shown pendingState) (MouseEv 55 55)
              demoProject plant1 (posAt 55 55)
              eq_refl eq_refl eq_refl (getPointerPos_shown _ 55 55))
    as (w1 & w2 & H1 & H2 & Hms & _).
  exists w1, w2. split; [exact H1 |]. split; [exact H2 |].
  rewrite Hms. reflexivity.
Defined.
